(** * Smart Jam: the note pipeline of [App] and [MagentaManager]

    A shallow embedding of the analysis loop of the Smart Jam [App]
    component (grid positions, note commits, loop-end detection, dispatch
    to Magenta) and of [MagentaManager.generateResponse].

    Numbers.  JavaScript numbers that hold times, frequencies and energies
    are modelled as exact rationals [Q]; numbers that hold grid positions
    and MIDI pitches (results of [Math.round], [Math.floor], [Math.ceil])
    are modelled as [Z].  [%] is the truncating remainder [Z.rem]. *)

From Stdlib Require Import ZArith QArith Qround Qminmax Qpower Qfield.
From Stdlib Require Import List Bool Lia String.
Import ListNotations.

Local Open Scope Z_scope.

(** ** JavaScript arithmetic *)

Module JS.

(** [Math.round(x)]: the nearest integer, halves rounded up. *)
Definition Math_round (x : Q) : Z := Qfloor (x + (1 # 2)).

Definition Math_floor (x : Q) : Z := Qfloor x.

Definition Math_ceil (x : Q) : Z := Qceiling x.

(** [a % b] on integer-valued numbers. *)
Definition rem (a b : Z) : Z := Z.rem a b.

(** [a > b] and [a >= b] on numbers. *)
Definition gt (a b : Q) : bool := negb (Qle_bool a b).

Definition ge (a b : Q) : bool := Qle_bool b a.

(** Truthiness of a number: every number but [0] (and [NaN]) is truthy. *)
Definition truthy (x : Q) : bool := negb (Qeq_bool x 0).

(** Truthiness of a variable that holds [null] or a number. *)
Definition truthy_opt (x : option Q) : bool :=
  match x with
  | None => false
  | Some q => truthy q
  end.

(** [v || d] for an optional integer field [v]. *)
Definition or_default (v : option Z) (d : Z) : Z :=
  match v with
  | None => d
  | Some n => if n =? 0 then d else n
  end.

(** [Math.max(...xs)] of a non-empty argument list ([-Infinity] is not
    modelled: the only call site passes a non-empty list). *)
Definition Math_max_list (xs : list Q) : Q :=
  match xs with
  | [] => 0
  | x :: rest => fold_left Qmax rest x
  end.

(** [floor (log2 q)] for a positive rational [q]. *)
Definition floor_log2 (q : Q) : Z :=
  let n := Qnum q in
  let d := Zpos (Qden q) in
  let k := Z.log2 n - Z.log2 d in
  if (if 0 <=? k then d * 2 ^ k <=? n else d <=? n * 2 ^ (- k))
  then k else k - 1.

(** [Math.round(69 + 12 * Math.log2(frequency / 440))] for a positive
    frequency, computed exactly.  With [r = frequency / 440],
    [Math.round(69 + 12 log2 r) = floor (69 + 1/2 + 12 log2 r)
     = floor ((139 + log2 (r^24)) / 2)
     = floor ((139 + floor (log2 (r^24))) / 2)],
    the last step because [139] is an integer. *)
Definition midiNumber (frequency : Q) : Z :=
  (139 + floor_log2 ((frequency / 440) ^ 24)) / 2.

End JS.

(** ** Data *)

(** A committed note, as built by the analysis loop and by
    [handleNoteEnd]; [velocity] is absent on those notes and present on
    converted Magenta responses. *)
Module Note.

Record t : Type := {
  pitch : Z;
  startPosition : Z;
  endPosition : Z;
  startTime : Q;
  endTime : Q;
  velocity : option Z
}.

(** [{ ...note, endTime, endPosition }] *)
Definition extend (n : t) (newEndTime : Q) (newEndPosition : Z) : t :=
  {| pitch := pitch n;
     startPosition := startPosition n;
     endPosition := newEndPosition;
     startTime := startTime n;
     endTime := newEndTime;
     velocity := velocity n |}.

Definition opt_eqb (a b : option Z) : bool :=
  match a, b with
  | None, None => true
  | Some x, Some y => x =? y
  | _, _ => false
  end.

(** Two notes print the same JSON text exactly when their fields agree. *)
Definition eqb (a b : t) : bool :=
  (pitch a =? pitch b) && (startPosition a =? startPosition b)
  && (endPosition a =? endPosition b)
  && Qeq_bool (startTime a) (startTime b)
  && Qeq_bool (endTime a) (endTime b)
  && opt_eqb (velocity a) (velocity b).

(** [JSON.stringify(xs) === JSON.stringify(ys)] on arrays of notes. *)
Fixpoint list_eqb (xs ys : list t) : bool :=
  match xs, ys with
  | [], [] => true
  | x :: xs', y :: ys' => eqb x y && list_eqb xs' ys'
  | _, _ => false
  end.

End Note.

(** The notes exchanged with [MagentaManager.generateResponse]:
    [{ pitch, startTime, endTime, velocity }]. *)
Module Magenta.

Record t : Type := {
  pitch : Z;
  startTime : Q;
  endTime : Q;
  velocity : Z
}.

(** The [sequence] object handed to [mm.sequences.quantizeNoteSequence];
    its [timeSignatures] and [tempos] are the constants 4/4 and 120 qpm. *)
Record Sequence : Type := {
  notes : list t;
  totalTime : Q
}.

(** A note of a quantized sequence and of the model's answer. *)
Record StepNote : Type := {
  step_pitch : Z;
  quantizedStartStep : Z;
  quantizedEndStep : Z;
  step_velocity : option Z
}.

(** The library [mm] (Magenta.js) as far as [generateResponse] uses it
    synchronously; the type of quantized sequences is the library's own. *)
Record Library : Type := {
  QuantizedSequence : Type;
  quantizeNoteSequence : Sequence -> Z -> QuantizedSequence
}.

End Magenta.

(** ** Asynchronous computations

    An [async] function that may await the model:
    [model.continueSequence(quantized, steps, temperature)] is the only
    await of [generateResponse] that leaves the program. *)

Section Async.

Variable mm : Magenta.Library.

Inductive Async (A : Type) : Type :=
| Return (a : A)
| Throw (message : string)
| ContinueSequence (quantized : Magenta.QuantizedSequence mm)
    (steps : Z) (temperature : Q)
    (k : list Magenta.StepNote -> Async A).

Fixpoint bind {A B : Type} (c : Async A) (f : A -> Async B) : Async B :=
  match c with
  | Return _ a => f a
  | Throw _ m => Throw B m
  | ContinueSequence _ q s t k => ContinueSequence B q s t (fun r => bind (k r) f)
  end.

(** Does the computation reach the model before it settles? *)
Definition invokesModel {A : Type} (c : Async A) : bool :=
  match c with
  | ContinueSequence _ _ _ _ _ => true
  | _ => false
  end.

End Async.

Arguments Return {mm A} a.
Arguments Throw {mm A} message.
Arguments ContinueSequence {mm A} quantized steps temperature k.
Arguments bind {mm A B} c f.
Arguments invokesModel {mm A} c.

Notation "x <- c ;; f" := (bind c (fun x => f))
  (at level 61, c at next level, right associativity).

(** ** [MagentaManager] *)

Module MagentaManager.

Record ValidNoteRange : Type := { min : Z; max : Z }.

Record t : Type := {
  isInitialized : bool;
  validNoteRange : ValidNoteRange
}.

(** The object built by [constructor()]. *)
Definition constructor : t :=
  {| isInitialized := false;
     validNoteRange := {| min := 48; max := 83 |} |}.

(** The object after a successful [initialize()]. *)
Definition initialized (this : t) : t :=
  {| isInitialized := true; validNoteRange := validNoteRange this |}.

Definition getValidNoteRange (this : t) : ValidNoteRange := validNoteRange this.

(** The predicate of [notes.filter(...)]. *)
Definition isValid (this : t) (note : Magenta.t) : bool :=
  (min (validNoteRange this) <=? Magenta.pitch note)
  && (Magenta.pitch note <=? max (validNoteRange this)).

Definition toMagentaNote (note : Magenta.t) : Magenta.t :=
  {| Magenta.pitch := Magenta.pitch note;
     Magenta.startTime := Magenta.startTime note;
     Magenta.endTime := Magenta.endTime note;
     Magenta.velocity := 100 |}.

(** [60 / (120 * 4)]: 120 BPM, 4 steps per quarter note. *)
Definition secondsPerStep : Q := 60 / (120 * 4).

Definition convertStepNote (note : Magenta.StepNote) : Magenta.t :=
  {| Magenta.pitch := Magenta.step_pitch note;
     Magenta.startTime := inject_Z (Magenta.quantizedStartStep note) * secondsPerStep;
     Magenta.endTime := inject_Z (Magenta.quantizedEndStep note) * secondsPerStep;
     Magenta.velocity := JS.or_default (Magenta.step_velocity note) 100 |}.

Definition generateResponse (mm : Magenta.Library) (this : t)
    (notes : list Magenta.t) (temperature : Q) : Async mm (list Magenta.t) :=
  if negb (isInitialized this) then
    Throw "Magenta not initialized. Please call initialize() first."%string
  else
    let validNotes := filter (isValid this) notes in
    if (Z.of_nat (List.length validNotes) =? 0) then
      Return []
    else
      let magentaNotes := map toMagentaNote validNotes in
      let sequence :=
        {| Magenta.notes := magentaNotes;
           Magenta.totalTime := JS.Math_max_list (map Magenta.endTime magentaNotes) |} in
      let quantized := Magenta.quantizeNoteSequence mm sequence 4 in
      response <- ContinueSequence quantized 32 temperature (fun r => Return r) ;;
      Return (map convertStepNote response).

End MagentaManager.

(** ** The [App] component

    [App] is a React function component.  Every render binds [bpm],
    [gridDivision], [numberOfBars], [maxNoteDuration],
    [isWaitingForMagenta] and [currentNoteState] with [const] from
    [useState], and builds fresh closures ([calculatePosition],
    [handleNoteStart], [handleNoteEnd], [listen]) that read those bindings.
    A setter ([setUserNotes], [setCurrentNoteState],
    [setIsWaitingForMagenta], [setAiNotes]) writes the React state that the
    next render will bind; it does not change what an existing closure
    sees.  [listen] is called once, by [startAudioAnalysis], and its inner
    function [loop] re-schedules itself with [requestAnimationFrame(loop)]:
    the whole session runs the closures of the render in which Start was
    clicked.  What the loop must see change is kept, in the source, in refs
    ([isRunningRef], [userNotesRef], [previousNotesRef], [modeRef]) or in
    the [let] variables of [listen].

    The model follows this: [Render.t] holds the bindings of one render,
    [React.t] the state written by the setters, and the refs and [let]
    variables are fields of the session state. *)

Module NoteState.

(** [currentNoteState] with [isActive: true]; the inactive state, whose
    other fields are all [null], is [None]. *)
Record Active : Type := {
  pitch : Q;
  startTime : Q;
  startPosition : Z;
  lastUpdateTime : Q
}.

Definition t : Type := option Active.

Definition isActive (s : t) : bool :=
  match s with
  | Some _ => true
  | None => false
  end.

End NoteState.

(** The [const] bindings of one render, as its closures see them. *)
Module Render.

Record t : Type := {
  bpm : Z;
  gridDivision : Z;
  numberOfBars : Z;
  maxNoteDuration : Z;
  isWaitingForMagenta : bool;
  currentNoteState : NoteState.t
}.

End Render.

(** The React state written by the setters. *)
Module React.

Record t : Type := {
  userNotes : list Note.t;
  currentNoteState : NoteState.t;
  isWaitingForMagenta : bool;
  aiNotes : list Note.t
}.

Definition setUserNotes (updater : list Note.t -> list Note.t) (s : t) : t :=
  {| userNotes := updater (userNotes s);
     currentNoteState := currentNoteState s;
     isWaitingForMagenta := isWaitingForMagenta s;
     aiNotes := aiNotes s |}.

Definition setCurrentNoteState (v : NoteState.t) (s : t) : t :=
  {| userNotes := userNotes s;
     currentNoteState := v;
     isWaitingForMagenta := isWaitingForMagenta s;
     aiNotes := aiNotes s |}.

Definition setIsWaitingForMagenta (v : bool) (s : t) : t :=
  {| userNotes := userNotes s;
     currentNoteState := currentNoteState s;
     isWaitingForMagenta := v;
     aiNotes := aiNotes s |}.

Definition setAiNotes (v : list Note.t) (s : t) : t :=
  {| userNotes := userNotes s;
     currentNoteState := currentNoteState s;
     isWaitingForMagenta := isWaitingForMagenta s;
     aiNotes := v |}.

(** The state of the first render. *)
Definition initial : t :=
  {| userNotes := [];
     currentNoteState := None;
     isWaitingForMagenta := false;
     aiNotes := [] |}.

End React.

(** The [let] variables of [listen] that the loop reads and writes. *)
Module Listen.

Record t : Type := {
  silenceStartTime : option Q;
  lastLoopEndPosition : Z;
  startTime : option Q
}.

Definition initial : t :=
  {| silenceStartTime := None;
     lastLoopEndPosition := -1;
     startTime := None |}.

Definition setSilenceStartTime (v : option Q) (l : t) : t :=
  {| silenceStartTime := v;
     lastLoopEndPosition := lastLoopEndPosition l;
     startTime := startTime l |}.

Definition setLastLoopEndPosition (v : Z) (l : t) : t :=
  {| silenceStartTime := silenceStartTime l;
     lastLoopEndPosition := v;
     startTime := startTime l |}.

Definition setStartTime (v : option Q) (l : t) : t :=
  {| silenceStartTime := silenceStartTime l;
     lastLoopEndPosition := lastLoopEndPosition l;
     startTime := v |}.

End Listen.

(** What one animation frame reads from the outside: [Tone.now()], the RMS
    energy of the analyser buffer, and the answer [[pitch, clarity]] of
    [detectorRef.current.findPitch]. *)
Module Frame.

Record t : Type := {
  now : Q;
  currentEnergy : Q;
  findPitch : Q * Q
}.

End Frame.

Module App.

Definition BEATS_PER_BAR : Z := 4.
Definition SUBDIVISIONS : Z := 8.
Definition VOLUME_THRESHOLD : Q := 1 # 10.
Definition SILENCE_THRESHOLD : Q := 2 # 10.

(** *** Grid positions *)

(** [numberOfBars * BEATS_PER_BAR * gridDivision] *)
Definition totalPositions (r : Render.t) : Z :=
  Render.numberOfBars r * BEATS_PER_BAR * Render.gridDivision r.

(** [60 / bpm / gridDivision], the length of one grid cell in seconds. *)
Definition secondsPerSubdivision (r : Render.t) : Q :=
  (60 / inject_Z (Render.bpm r)) / inject_Z (Render.gridDivision r).

(** The wrap-around [position % (numberOfBars * BEATS_PER_BAR * gridDivision)]
    that ends [calculatePosition]. *)
Definition wrap (r : Render.t) (position : Z) : Z :=
  JS.rem position (Render.numberOfBars r * BEATS_PER_BAR * Render.gridDivision r).

Definition calculatePosition (r : Render.t) (time : Q) : Z :=
  let secondsPerBeat := (60 / inject_Z (Render.bpm r))%Q in
  let secondsPerSubdivision := (secondsPerBeat / inject_Z (Render.gridDivision r))%Q in
  let position := JS.Math_round (time / secondsPerSubdivision) in
  wrap r position.

(** The position computed inline by the loop:
    [Math.floor(relativeTime / (60 / bpm / gridDivision)) % totalPositions]. *)
Definition normalizedPosition (r : Render.t) (relativeTime : Q) : Z :=
  let currentPosition :=
    JS.Math_floor
      (relativeTime / (60 / inject_Z (Render.bpm r) / inject_Z (Render.gridDivision r))) in
  JS.rem currentPosition (totalPositions r).

(** *** The committed notes *)

(** The updater passed to [setUserNotes], in [handleNoteEnd] and in the
    loop alike:
    [isAddMode ? (prev.some(same startPosition and pitch) ? prev : [...prev, note])
               : [...prev.filter(other startPosition), note]]. *)
Definition commitNote (isAddMode : bool) (note : Note.t) (prev : list Note.t)
    : list Note.t :=
  if isAddMode then
    if existsb (fun n => (Note.startPosition n =? Note.startPosition note)
                         && (Note.pitch n =? Note.pitch note)) prev
    then prev
    else prev ++ [note]
  else
    filter (fun n => negb (Note.startPosition n =? Note.startPosition note)) prev
    ++ [note].

(** *** Combining notes for Magenta *)

(** One turn of [userNotesRef.current.forEach]; the state is
    [(combinedNotes, currentNote)]. *)
Definition combineStep (acc : list Note.t * option Note.t) (note : Note.t)
    : list Note.t * option Note.t :=
  let (combinedNotes, currentNote) := acc in
  match currentNote with
  | None => (combinedNotes, Some note)
  | Some current =>
      if Note.pitch note =? Note.pitch current then
        (combinedNotes,
         Some (Note.extend current (Note.endTime note) (Note.endPosition note)))
      else
        (combinedNotes ++ [current], Some note)
  end.

Definition combineNotes (notes : list Note.t) : list Note.t :=
  let (combinedNotes, currentNote) := fold_left combineStep notes ([], None) in
  match currentNote with
  | Some current => combinedNotes ++ [current]
  | None => combinedNotes
  end.

Definition toMagentaNote (note : Note.t) : Magenta.t :=
  {| Magenta.pitch := Z.max 0 (Z.min 127 (Note.pitch note));
     Magenta.startTime := Note.startTime note;
     Magenta.endTime := Note.endTime note;
     Magenta.velocity := JS.or_default (Note.velocity note) 100 |}.

(** The conversion of one note of Magenta's answer, in the [then]
    callback. *)
Definition convertResponseNote (r : Render.t) (note : Magenta.t) : Note.t :=
  let secondsPerBeat := (60 / inject_Z (Render.bpm r))%Q in
  let secondsPerSubdivision := (secondsPerBeat / inject_Z SUBDIVISIONS)%Q in
  let startPosition := JS.Math_floor (Magenta.startTime note / secondsPerSubdivision) in
  let endPosition := JS.Math_ceil (Magenta.endTime note / secondsPerSubdivision) in
  {| Note.pitch := Magenta.pitch note;
     Note.startPosition := startPosition;
     Note.endPosition := endPosition;
     Note.startTime := Magenta.startTime note;
     Note.endTime := Magenta.endTime note;
     Note.velocity := Some (Magenta.velocity note) |}.

(** *** The state of a running session *)

Section WithLibrary.

Variable mm : Magenta.Library.

(** A call of [generateResponse] that waits for the model. *)
Record Pending : Type := {
  quantized : Magenta.QuantizedSequence mm;
  steps : Z;
  temperature : Q;
  continuation : list Magenta.StepNote -> Async mm (list Magenta.t)
}.

Record State : Type := {
  listen : Listen.t;
  userNotesRef : list Note.t;
  previousNotesRef : list Note.t;
  modeRef : bool;  (* [modeRef.current.isAddMode] *)
  react : React.t;
  magentaManager : option MagentaManager.t;  (* [window.magentaManager] *)
  inFlight : list Pending
}.

Definition setListen (f : Listen.t -> Listen.t) (st : State) : State :=
  {| listen := f (listen st);
     userNotesRef := userNotesRef st;
     previousNotesRef := previousNotesRef st;
     modeRef := modeRef st;
     react := react st;
     magentaManager := magentaManager st;
     inFlight := inFlight st |}.

Definition setUserNotesRef (v : list Note.t) (st : State) : State :=
  {| listen := listen st;
     userNotesRef := v;
     previousNotesRef := previousNotesRef st;
     modeRef := modeRef st;
     react := react st;
     magentaManager := magentaManager st;
     inFlight := inFlight st |}.

Definition setPreviousNotesRef (v : list Note.t) (st : State) : State :=
  {| listen := listen st;
     userNotesRef := userNotesRef st;
     previousNotesRef := v;
     modeRef := modeRef st;
     react := react st;
     magentaManager := magentaManager st;
     inFlight := inFlight st |}.

Definition setModeRef (v : bool) (st : State) : State :=
  {| listen := listen st;
     userNotesRef := userNotesRef st;
     previousNotesRef := previousNotesRef st;
     modeRef := v;
     react := react st;
     magentaManager := magentaManager st;
     inFlight := inFlight st |}.

Definition setReact (f : React.t -> React.t) (st : State) : State :=
  {| listen := listen st;
     userNotesRef := userNotesRef st;
     previousNotesRef := previousNotesRef st;
     modeRef := modeRef st;
     react := f (react st);
     magentaManager := magentaManager st;
     inFlight := inFlight st |}.

Definition setMagentaManager (v : option MagentaManager.t) (st : State) : State :=
  {| listen := listen st;
     userNotesRef := userNotesRef st;
     previousNotesRef := previousNotesRef st;
     modeRef := modeRef st;
     react := react st;
     magentaManager := v;
     inFlight := inFlight st |}.

Definition setInFlight (v : list Pending) (st : State) : State :=
  {| listen := listen st;
     userNotesRef := userNotesRef st;
     previousNotesRef := previousNotesRef st;
     modeRef := modeRef st;
     react := react st;
     magentaManager := magentaManager st;
     inFlight := v |}.

(** The page after its first render, before Magenta has loaded. *)
Definition mounted : State :=
  {| listen := Listen.initial;
     userNotesRef := [];
     previousNotesRef := [];
     modeRef := true;
     react := React.initial;
     magentaManager := None;
     inFlight := [] |}.

(** What a step lets an observer see: whether the loop end was detected,
    the argument of every [generateResponse] call, and how many times
    [handleNoteEnd] found an active note and closed it. *)
Record Log : Type := {
  loopEnd : bool;
  sent : list (list Magenta.t);
  closed : nat
}.

Definition quiet : Log := {| loopEnd := false; sent := []; closed := 0 |}.

(** *** [handleNoteEnd] and [handleNoteStart] *)

Definition handleNoteEnd (r : Render.t) (time : Q) (st : State) : State * nat :=
  match Render.currentNoteState r with
  | Some currentNoteState =>
      let endPosition := calculatePosition r time in
      let note :=
        {| Note.pitch := JS.midiNumber (NoteState.pitch currentNoteState);
           Note.startPosition := NoteState.startPosition currentNoteState;
           Note.endPosition := endPosition;
           Note.startTime := NoteState.startTime currentNoteState;
           Note.endTime := time;
           Note.velocity := None |} in
      let st := setReact (React.setUserNotes (commitNote (modeRef st) note)) st in
      let st := setReact (React.setCurrentNoteState None) st in
      (st, 1%nat)
  | None => (st, 0%nat)
  end.

(** [handleNoteStart] is defined by every render and called by none of the
    source's functions. *)
Definition handleNoteStart (r : Render.t) (pitch time : Q) (st : State)
    : State * nat :=
  let position := calculatePosition r time in
  let started :=
    Some {| NoteState.pitch := pitch;
            NoteState.startTime := time;
            NoteState.startPosition := position;
            NoteState.lastUpdateTime := time |} in
  match Render.currentNoteState r with
  | None => (setReact (React.setCurrentNoteState started) st, 0%nat)
  | Some currentNoteState =>
      let currentMidiNote := JS.midiNumber (NoteState.pitch currentNoteState) in
      let newMidiNote := JS.midiNumber pitch in
      let pitchDifference := Z.abs (newMidiNote - currentMidiNote) in
      if 1 <=? pitchDifference then
        let (st, n) := handleNoteEnd r time st in
        (setReact (React.setCurrentNoteState started) st, n)
      else
        let currentDuration := (time - NoteState.startTime currentNoteState)%Q in
        let secondsPerBeat := (60 / inject_Z (Render.bpm r))%Q in
        let maxDurationInSeconds :=
          ((inject_Z (Render.maxNoteDuration r) / inject_Z (Render.gridDivision r))
           * secondsPerBeat)%Q in
        if JS.ge currentDuration maxDurationInSeconds then
          let (st, n) := handleNoteEnd r time st in
          (setReact (React.setCurrentNoteState started) st, n)
        else (st, 0%nat)
  end.

(** *** The promise chain [.then(...).catch(...).finally(...)] *)

Definition thenCatchFinally (r : Render.t) (c : Async mm (list Magenta.t))
    (st : State) : State :=
  match c with
  | Return response =>
      let st :=
        if (0 <? Z.of_nat (List.length response)) then
          setReact (React.setAiNotes (map (convertResponseNote r) response)) st
        else st in
      setReact (React.setIsWaitingForMagenta false) st
  | Throw _ =>
      setReact (React.setIsWaitingForMagenta false) st
  | ContinueSequence q s t k =>
      setInFlight
        (inFlight st ++ [{| quantized := q; steps := s; temperature := t;
                            continuation := k |}]) st
  end.

(** *** The loop end *)

(** The body of [if (normalizedPosition === 0 && ...)]. *)
Definition onLoopEnd (r : Render.t) (st : State) : State * list (list Magenta.t) :=
  let hasBufferChanged :=
    negb (Note.list_eqb (userNotesRef st) (previousNotesRef st)) in
  if hasBufferChanged && negb (Render.isWaitingForMagenta r) then
    let combinedNotes := combineNotes (userNotesRef st) in
    let magentaNotes := map toMagentaNote combinedNotes in
    let st := setPreviousNotesRef (userNotesRef st) st in
    let st := setReact (React.setIsWaitingForMagenta true) st in
    match magentaManager st with
    | Some manager =>
        (thenCatchFinally r
           (MagentaManager.generateResponse mm manager magentaNotes 1) st,
         [magentaNotes])
    | None =>
        (setReact (React.setIsWaitingForMagenta false) st, [])
    end
  else (st, []).

(** The test [normalizedPosition === 0 &&
    (lastLoopEndPosition === totalPositions - 1 || lastLoopEndPosition === -1)]. *)
Definition isLoopEnd (normalizedPosition lastLoopEndPosition totalPositions : Z)
    : bool :=
  (normalizedPosition =? 0)
  && ((lastLoopEndPosition =? totalPositions - 1) || (lastLoopEndPosition =? -1)).

(** *** Note detection and silence *)

(** The block [// Handle note detection].  [currentNoteState] is the
    binding of the render [r], as in [handleNoteEnd]. *)
Definition detectNote (r : Render.t) (f : Frame.t) (isSoundDetected : bool)
    (normalizedPosition : Z) (relativeTime : Q) (st : State) : State * nat :=
  let currentTime := Frame.now f in
  if isSoundDetected then
    let (pitch, clarity) := Frame.findPitch f in
    if JS.truthy pitch && JS.gt clarity (7 # 10) then
      let position := normalizedPosition in
      let midiNote := Z.max 0 (Z.min 127 (JS.midiNumber pitch)) in
      let note :=
        {| Note.pitch := midiNote;
           Note.startPosition := position;
           Note.endPosition := position + 1;
           Note.startTime := relativeTime;
           Note.endTime :=
             relativeTime
             + (60 / inject_Z (Render.bpm r) / inject_Z (Render.gridDivision r));
           Note.velocity := None |} in
      let newNotes := commitNote (modeRef st) note (React.userNotes (react st)) in
      let st := setReact (React.setUserNotes (fun _ => newNotes)) st in
      (setUserNotesRef newNotes st, 0%nat)
    else (st, 0%nat)
  else
    if NoteState.isActive (Render.currentNoteState r) then
      match Listen.silenceStartTime (listen st) with
      | Some silenceStartTime =>
          if negb (JS.truthy silenceStartTime) then
            (setListen (Listen.setSilenceStartTime (Some currentTime)) st, 0%nat)
          else if JS.gt (currentTime - silenceStartTime) (1 # 10) then
            let (st, n) := handleNoteEnd r currentTime st in
            (setListen (Listen.setSilenceStartTime None) st, n)
          else (st, 0%nat)
      | None =>
          (setListen (Listen.setSilenceStartTime (Some currentTime)) st, 0%nat)
      end
    else (st, 0%nat).

(** The silent branch of the block [// Always update pitch display]. *)
Definition updatePitchDisplay (r : Render.t) (f : Frame.t) (isSoundDetected : bool)
    (st : State) : State * nat :=
  let currentTime := Frame.now f in
  if isSoundDetected then (st, 0%nat)
  else
    let st :=
      if NoteState.isActive (Render.currentNoteState r)
         && negb (JS.truthy_opt (Listen.silenceStartTime (listen st)))
      then setListen (Listen.setSilenceStartTime (Some currentTime)) st
      else st in
    match Listen.silenceStartTime (listen st) with
    | Some silenceStartTime =>
        if JS.truthy silenceStartTime
           && JS.gt (currentTime - silenceStartTime) SILENCE_THRESHOLD
        then
          let (st, n) := handleNoteEnd r silenceStartTime st in
          (setListen (Listen.setSilenceStartTime None) st, n)
        else (st, 0%nat)
    | None => (st, 0%nat)
    end.

(** *** One animation frame: the body of [loop]

    Left out of the model: the drawing of the waveform and of the input
    level, the block that resynchronizes [Tone.Transport] on a beat (it
    writes [lastBeatTime] and the transport position only), and the
    [catch] that stops the loop when the analyser or the detector throws.
    An updater passed to [setUserNotes] is taken to run before the next
    frame. *)

(** [startTime] once the loop has run [if (startTime === null) startTime = currentTime]. *)
Definition startTimeOf (f : Frame.t) (st : State) : Q :=
  match Listen.startTime (listen st) with
  | None => Frame.now f
  | Some startTime => startTime
  end.

(** The [normalizedPosition] that the loop computes for frame [f]. *)
Definition positionOf (r : Render.t) (f : Frame.t) (st : State) : Z :=
  normalizedPosition r (Frame.now f - startTimeOf f st).

Definition loop (r : Render.t) (f : Frame.t) (st : State) : State * Log :=
  let isSoundDetected := JS.gt (Frame.currentEnergy f) VOLUME_THRESHOLD in
  let currentTime := Frame.now f in
  let startTime := startTimeOf f st in
  let st := setListen (Listen.setStartTime (Some startTime)) st in
  let relativeTime := (currentTime - startTime)%Q in
  let totalPositions := totalPositions r in
  let normalizedPosition := normalizedPosition r relativeTime in
  let atLoopEnd :=
    isLoopEnd normalizedPosition (Listen.lastLoopEndPosition (listen st))
      totalPositions in
  let (st, sent) := if atLoopEnd then onLoopEnd r st else (st, []) in
  let st := setListen (Listen.setLastLoopEndPosition normalizedPosition) st in
  let (st, closed1) :=
    detectNote r f isSoundDetected normalizedPosition relativeTime st in
  let (st, closed2) := updatePitchDisplay r f isSoundDetected st in
  (st, {| loopEnd := atLoopEnd; sent := sent; closed := closed1 + closed2 |}).

(** *** Everything that can happen to a running session *)

Inductive Event : Type :=
| AnimationFrame (f : Frame.t)
| HandleModeChange
| MagentaInitialized
| ModelResolves (i : nat) (response : list Magenta.StepNote)
| ModelRejects (i : nat).

Fixpoint removeNth {A : Type} (i : nat) (xs : list A) : list A :=
  match xs, i with
  | [], _ => []
  | _ :: rest, O => rest
  | x :: rest, S j => x :: removeNth j rest
  end.

Definition step (r : Render.t) (e : Event) (st : State) : State * Log :=
  match e with
  | AnimationFrame f => loop r f st
  | HandleModeChange => (setModeRef (negb (modeRef st)) st, quiet)
  | MagentaInitialized =>
      (setMagentaManager
         (Some (MagentaManager.initialized MagentaManager.constructor)) st,
       quiet)
  | ModelResolves i response =>
      match nth_error (inFlight st) i with
      | Some p =>
          (thenCatchFinally r (continuation p response)
             (setInFlight (removeNth i (inFlight st)) st),
           quiet)
      | None => (st, quiet)
      end
  | ModelRejects i =>
      match nth_error (inFlight st) i with
      | Some p =>
          (thenCatchFinally r (Throw "continueSequence rejected"%string)
             (setInFlight (removeNth i (inFlight st)) st),
           quiet)
      | None => (st, quiet)
      end
  end.

Fixpoint run (r : Render.t) (events : list Event) (st : State)
    : State * list Log :=
  match events with
  | [] => (st, [])
  | e :: rest =>
      let (st1, l) := step r e st in
      let (st2, ls) := run r rest st1 in
      (st2, l :: ls)
  end.

(** [toggleJam] on a stopped session, once the audio chain is up:
    [startAudioAnalysis] clears the notes with [setUserNotes([])] and calls
    [listen()], whose closure [loop] keeps the bindings of the render in
    which the button was clicked. *)
Definition renderOf (bpm gridDivision numberOfBars maxNoteDuration : Z)
    (st : State) : Render.t :=
  {| Render.bpm := bpm;
     Render.gridDivision := gridDivision;
     Render.numberOfBars := numberOfBars;
     Render.maxNoteDuration := maxNoteDuration;
     Render.isWaitingForMagenta := React.isWaitingForMagenta (react st);
     Render.currentNoteState := React.currentNoteState (react st) |}.

Definition startAudioAnalysis (st : State) : State :=
  setListen (fun _ => Listen.initial)
    (setReact (React.setUserNotes (fun _ => [])) st).

End WithLibrary.

Arguments listen {mm} s.
Arguments userNotesRef {mm} s.
Arguments previousNotesRef {mm} s.
Arguments modeRef {mm} s.
Arguments react {mm} s.
Arguments magentaManager {mm} s.
Arguments inFlight {mm} s.
Arguments setListen {mm} f st.
Arguments setUserNotesRef {mm} v st.
Arguments setPreviousNotesRef {mm} v st.
Arguments setModeRef {mm} v st.
Arguments setReact {mm} f st.
Arguments setMagentaManager {mm} v st.
Arguments setInFlight {mm} v st.
Arguments handleNoteEnd {mm} r time st.
Arguments handleNoteStart {mm} r pitch time st.
Arguments thenCatchFinally {mm} r c st.
Arguments onLoopEnd {mm} r st.
Arguments detectNote {mm} r f isSoundDetected normalizedPosition relativeTime st.
Arguments updatePitchDisplay {mm} r f isSoundDetected st.
Arguments startTimeOf {mm} f st.
Arguments positionOf {mm} r f st.
Arguments loop {mm} r f st.
Arguments step {mm} r e st.
Arguments run {mm} r events st.
Arguments renderOf {mm} bpm gridDivision numberOfBars maxNoteDuration st.
Arguments startAudioAnalysis {mm} st.

End App.

(** ** Vocabulary of the properties *)

Module Properties.

(** No two neighbours of the list have the same pitch. *)
Fixpoint noAdjacentPitch (notes : list Note.t) : Prop :=
  match notes with
  | [] => True
  | a :: rest =>
      match rest with
      | [] => True
      | b :: _ => Note.pitch a <> Note.pitch b
      end /\ noAdjacentPitch rest
  end.



(** The frame is voiced: the energy passes [VOLUME_THRESHOLD], a pitch is
    found and its clarity passes [0.7]. *)
Definition voiced (f : Frame.t) : bool :=
  JS.gt (Frame.currentEnergy f) App.VOLUME_THRESHOLD
  && JS.truthy (fst (Frame.findPitch f))
  && JS.gt (snd (Frame.findPitch f)) (7 # 10).

(** The one-cell note that the loop builds on a voiced frame. *)
Definition noteOfFrame (r : Render.t) (position : Z) (relativeTime pitch : Q)
    : Note.t :=
  {| Note.pitch := Z.max 0 (Z.min 127 (JS.midiNumber pitch));
     Note.startPosition := position;
     Note.endPosition := position + 1;
     Note.startTime := relativeTime;
     Note.endTime :=
       relativeTime
       + (60 / inject_Z (Render.bpm r) / inject_Z (Render.gridDivision r));
     Note.velocity := None |}.





(** [combineNotes] once the accumulator [currentNote] is set. *)
Fixpoint combineFrom (current : Note.t) (rest : list Note.t) : list Note.t :=
  match rest with
  | [] => [current]
  | note :: rest' =>
      if Note.pitch note =? Note.pitch current then
        combineFrom
          (Note.extend current (Note.endTime note) (Note.endPosition note)) rest'
      else current :: combineFrom note rest'
  end.

(** What the loop-end block leaves alone. *)
Definition keepsNotes {mm : Magenta.Library} (st st' : App.State mm) : Prop :=
  App.listen st' = App.listen st
  /\ App.userNotesRef st' = App.userNotesRef st
  /\ App.modeRef st' = App.modeRef st
  /\ React.userNotes (App.react st') = React.userNotes (App.react st)
  /\ React.currentNoteState (App.react st') = React.currentNoteState (App.react st).

Definition sumClosed (logs : list App.Log) : nat :=
  fold_right (fun l n => (App.closed l + n)%nat) 0%nat logs.

End Properties.

(** ** Concrete sessions *)

Module Session.

(** A stand-in for Magenta.js that keeps the arguments of
    [quantizeNoteSequence] as the quantized sequence. *)
Definition mm : Magenta.Library :=
  {| Magenta.QuantizedSequence := (Magenta.Sequence * Z)%type;
     Magenta.quantizeNoteSequence := fun sequence stepsPerQuarter =>
       (sequence, stepsPerQuarter) |}.

(** The page once Magenta has loaded and the user has clicked Start. *)
Definition started : App.State mm :=
  App.startAudioAnalysis
    (fst (App.step (App.renderOf 120 8 4 32 (App.mounted mm))
            App.MagentaInitialized (App.mounted mm))).

(** The render whose [listen] runs: 120 BPM, 32nd-note grid, 4 bars. *)
Definition render : Render.t := App.renderOf 120 8 4 32 started.

(** A frame at time [t] with energy [0.5] in which the detector hears
    [hz] with clarity [0.9]. *)
Definition sung (t hz : Q) : Frame.t :=
  {| Frame.now := t; Frame.currentEnergy := 5 # 10;
     Frame.findPitch := (hz, (9 # 10)%Q) |}.

(** A frame at time [t] with no energy. *)
Definition rest (t : Q) : Frame.t :=
  {| Frame.now := t; Frame.currentEnergy := 0; Frame.findPitch := (0%Q, 0%Q) |}.

(** A render at 200 BPM with 2 bars of 32nd notes: 64 cells of 37.5 ms,
    a loop of 2.4 s. *)
Definition brisk : Render.t := App.renderOf 200 8 2 32 started.

(** Two loops of 2.4 s played while the model is still thinking: an A4
    in the first cell of loop one, a B4 at the start of loop two, and the
    start of loop three. *)
Definition twoLoops : list Frame.t :=
  [ sung 1 440;
    rest (339 # 100);
    sung (34 # 10) 494;
    rest (579 # 100);
    rest (58 # 10) ].




(** A render like [render] in which an A4 is active since cell 0. *)
Definition holding : Render.t :=
  {| Render.bpm := 120;
     Render.gridDivision := 8;
     Render.numberOfBars := 4;
     Render.maxNoteDuration := 32;
     Render.isWaitingForMagenta := false;
     Render.currentNoteState :=
       Some {| NoteState.pitch := 440;
               NoteState.startTime := 1;
               NoteState.startPosition := 0;
               NoteState.lastUpdateTime := 1 |} |}.

(** 240 ms of silence sampled every 60 ms. *)
Definition longSilence : list Frame.t :=
  [ rest 2; rest (206 # 100); rest (212 # 100); rest (218 # 100);
    rest (224 # 100) ].

(** A note of Magenta's answer, from 0.125 s to 0.25 s. *)
Definition answered : Magenta.t :=
  {| Magenta.pitch := 60;
     Magenta.startTime := 125 # 1000;
     Magenta.endTime := 25 # 100;
     Magenta.velocity := 100 |}.




Definition continued : Magenta.StepNote :=
  {| Magenta.step_pitch := 72;
     Magenta.quantizedStartStep := 1;
     Magenta.quantizedEndStep := 3;
     Magenta.step_velocity := None |}.

End Session.

(** ** More of [App]: note names, quantized notes, metronome, export *)

Module Display.





End Display.

Module Quantize.

(** [quantizeNote] of the Smart Jam [App]. *)
Definition quantizeNote (r : Render.t) (pitch time : Q) : Note.t :=
  let secondsPerBeat := (60 / inject_Z (Render.bpm r))%Q in
  let secondsPerSubdivision := (secondsPerBeat / inject_Z App.SUBDIVISIONS)%Q in
  let position := JS.Math_round (time / secondsPerSubdivision) in
  let midiNote := JS.midiNumber pitch in
  let clampedMidiNote := Z.max 0 (Z.min 127 midiNote) in
  {| Note.pitch := clampedMidiNote;
     Note.startPosition :=
       JS.rem position (Render.numberOfBars r * App.BEATS_PER_BAR * App.SUBDIVISIONS);
     Note.endPosition :=
       JS.rem (position + 1)
         (Render.numberOfBars r * App.BEATS_PER_BAR * App.SUBDIVISIONS);
     Note.startTime := time;
     Note.endTime := time + secondsPerSubdivision;
     Note.velocity := Some 100 |}.

End Quantize.

Module Metronome.

(** One run of the callback of [Tone.Transport.scheduleRepeat] in
    [startMetronome], on its variable [position];
    [totalPositions = numberOfBars * BEATS_PER_BAR] is bound when the
    metronome starts. *)
Definition tick (r : Render.t) (position : Z) : Z :=
  JS.rem (position + 1) (Render.numberOfBars r * App.BEATS_PER_BAR).

(** The playhead after [beats] callbacks, from [position]. *)
Fixpoint playhead (r : Render.t) (beats : nat) (position : Z) : Z :=
  match beats with
  | O => position
  | S n => playhead r n (tick r position)
  end.

(** What [handleBarCountChange] passes to [setPlayheadPosition]. *)
Definition handleBarCountChange (playheadPosition newBarCount : Z) : Z :=
  JS.rem playheadPosition newBarCount.

End Metronome.

Module MidiExport.

(** The argument of [track.addNote]. *)
Record TrackNote : Type := {
  midi : Z;
  time : Q;
  duration : Q;
  velocity : Q
}.

(** The body of [userNotes.forEach] and of [aiNotes.forEach] in
    [exportMIDI]. *)
Definition exportNote (r : Render.t) (note : Note.t) : TrackNote :=
  let startTime :=
    ((inject_Z (Note.startPosition note) * 60)
     / (inject_Z (Render.bpm r) * inject_Z (Render.gridDivision r)))%Q in
  let endTime :=
    ((inject_Z (Note.endPosition note) * 60)
     / (inject_Z (Render.bpm r) * inject_Z (Render.gridDivision r)))%Q in
  let adjustedPitch := Note.pitch note + 12 in
  {| midi := adjustedPitch;
     time := startTime;
     duration := endTime - startTime;
     velocity := 8 # 10 |}.

(** The [Midi] object that [exportMIDI] builds before it is written. *)
Record MidiFile : Type := {
  userTrack : list TrackNote;
  aiTrack : list TrackNote;
  tempo : Z
}.

Definition exportMIDI (r : Render.t) (userNotes aiNotes : list Note.t) : MidiFile :=
  {| userTrack := map (exportNote r) userNotes;
     aiTrack := map (exportNote r) aiNotes;
     tempo := Render.bpm r |}.

End MidiExport.

(** ** [MusicGrid] *)

Module MusicGrid.

(** The canvas is 800 by 200. *)
Definition width : Q := 800.
Definition height : Q := 200.

(** The test [playheadPosition >= 0 && playheadPosition < totalPositions]
    with [totalPositions = numberOfBars * 4]. *)
Definition playheadDrawn (numberOfBars playheadPosition : Z) : bool :=
  (0 <=? playheadPosition) && (playheadPosition <? numberOfBars * 4).

(** The arguments of [ctx.fillRect] for a note, and whether it is filled
    in the colour of the valid range. *)
Record Rect : Type := {
  x : Q;
  y : Q;
  w : Q;
  h : Q;
  isInValidRange : bool
}.

(** The body of [userNotes.forEach]: [None] when the note is not drawn. *)
Definition drawNote (numberOfBars gridDivision : Z)
    (validNoteRange : MagentaManager.ValidNoteRange) (note : Note.t)
    : option Rect :=
  let TOTAL_SUBDIVISIONS := numberOfBars * 4 * gridDivision in
  let subdivisionWidth := (width / inject_Z TOTAL_SUBDIVISIONS)%Q in
  let startX := (inject_Z (Note.startPosition note) * subdivisionWidth)%Q in
  let endX := (inject_Z (Note.endPosition note) * subdivisionWidth)%Q in
  let midiNote := Note.pitch note in
  let yPos := (height - (inject_Z (midiNote - 60) * 5 + height / 2))%Q in
  if Qle_bool 0 yPos && Qle_bool yPos height then
    Some {| x := startX;
            y := yPos;
            w := endX - startX;
            h := 8;
            isInValidRange :=
              (MagentaManager.min validNoteRange <=? midiNote)
              && (midiNote <=? MagentaManager.max validNoteRange) |}
  else None.

End MusicGrid.

(** ** [AudioBuffer]

    The samples are the values a [Float32Array] holds; a sample written
    from a [Float32Array] is stored as it is. *)

Module AudioBuffer.

Record t : Type := {
  sampleRate : Q;
  bufferSize : nat;
  buffer : list Q;
  writeHead : nat;
  readHead : nat;
  isRecording : bool
}.

(** [buffer[i] = v] on a typed array: no effect outside the array. *)
Fixpoint store (i : nat) (v : Q) (xs : list Q) {struct xs} : list Q :=
  match xs, i with
  | [], _ => []
  | _ :: rest, O => v :: rest
  | x :: rest, S j => x :: store j v rest
  end.

(** [new AudioBuffer(sampleRate)]: room for 8 bars at 40 BPM. *)
Definition constructor (sampleRate : Q) : t :=
  let secondsPerBeat := (60 / 40)%Q in
  let totalBeats := (8 * 4)%Q in
  let totalSeconds := (secondsPerBeat * totalBeats)%Q in
  let bufferSize := Z.to_nat (JS.Math_ceil (totalSeconds * sampleRate)) in
  {| sampleRate := sampleRate;
     bufferSize := bufferSize;
     buffer := repeat 0%Q bufferSize;
     writeHead := 0;
     readHead := 0;
     isRecording := false |}.

(** One turn of the loop of [write]. *)
Definition writeSample (this : t) (sample : Q) : t :=
  {| sampleRate := sampleRate this;
     bufferSize := bufferSize this;
     buffer := store (writeHead this) sample (buffer this);
     writeHead := (writeHead this + 1) mod bufferSize this;
     readHead := readHead this;
     isRecording := isRecording this |}.

Definition write (data : list Q) (this : t) : t :=
  if negb (isRecording this) then this
  else fold_left writeSample data this.

(** The loop of [read]: the samples read and the buffer afterwards. *)
Fixpoint read (length : nat) (this : t) : list Q * t :=
  match length with
  | O => ([], this)
  | S n =>
      let sample := nth (readHead this) (buffer this) 0%Q in
      let this' :=
        {| sampleRate := sampleRate this;
           bufferSize := bufferSize this;
           buffer := buffer this;
           writeHead := writeHead this;
           readHead := (readHead this + 1) mod bufferSize this;
           isRecording := isRecording this |} in
      let (result, final) := read n this' in
      (sample :: result, final)
  end.

Definition start (this : t) : t :=
  {| sampleRate := sampleRate this;
     bufferSize := bufferSize this;
     buffer := buffer this;
     writeHead := 0;
     readHead := 0;
     isRecording := true |}.

Definition stop (this : t) : t :=
  {| sampleRate := sampleRate this;
     bufferSize := bufferSize this;
     buffer := buffer this;
     writeHead := writeHead this;
     readHead := readHead this;
     isRecording := false |}.

Definition clear (this : t) : t :=
  {| sampleRate := sampleRate this;
     bufferSize := bufferSize this;
     buffer := map (fun _ => 0%Q) (buffer this);
     writeHead := 0;
     readHead := 0;
     isRecording := isRecording this |}.

Definition getSize (this : t) : nat := bufferSize this.

Definition getWritePosition (this : t) : nat := writeHead this.

Definition getReadPosition (this : t) : nat := readHead this.

(** The [length] cells met from cell [head] on, going round the buffer. *)
Fixpoint cellsFrom (size : nat) (cells : list Q) (head length : nat) : list Q :=
  match length with
  | O => []
  | S n => nth head cells 0%Q :: cellsFrom size cells ((head + 1) mod size) n
  end.

(** The buffer is as long as [bufferSize] says and the heads are inside
    it. *)
Definition wellFormed (this : t) : Prop :=
  (0 < bufferSize this)%nat
  /\ List.length (buffer this) = bufferSize this
  /\ (writeHead this < bufferSize this)%nat
  /\ (readHead this < bufferSize this)%nat.

End AudioBuffer.

(** ** [MIDIManager] *)

Module MIDIManager.

(** A [MIDIOutput] port. *)
Record Output : Type := {
  id : string;
  name : string
}.

(** [outputs] is a [Map] from port ids to ports, kept in insertion
    order. *)
Record t : Type := {
  outputs : list (string * Output);
  isConnected : bool
}.

(** A call [output.send(message)], on the port stored under [key]. *)
Definition Delivery : Type := (string * list Z)%type.

Definition constructor : t := {| outputs := []; isConnected := false |}.

(** [map.set(key, value)]: a key already present keeps its place. *)
Fixpoint mapSet (key : string) (value : Output) (entries : list (string * Output))
    : list (string * Output) :=
  match entries with
  | [] => [(key, value)]
  | (k, v) :: rest =>
      if String.eqb k key then (k, value) :: rest
      else (k, v) :: mapSet key value rest
  end.

(** [map.get(key)] *)
Fixpoint mapGet (key : string) (entries : list (string * Output)) : option Output :=
  match entries with
  | [] => None
  | (k, v) :: rest => if String.eqb k key then Some v else mapGet key rest
  end.

(** [connect()], given what [navigator.requestMIDIAccess()] settles to:
    [Some ports] for an access object with these output ports, [None] for
    a rejection. *)
Definition connect (access : option (list Output)) (this : t) : t * bool :=
  match access with
  | Some ports =>
      ({| outputs :=
            fold_left (fun entries output => mapSet (id output) output entries)
              ports (outputs this);
          isConnected := true |},
       true)
  | None => ({| outputs := outputs this; isConnected := false |}, false)
  end.

(** Truthiness of [outputId]: [null] and the empty string are falsy. *)
Definition truthyId (outputId : option string) : option string :=
  match outputId with
  | Some i => if String.eqb i ""%string then None else Some i
  | None => None
  end.

Definition sendMessage (this : t) (message : list Z) (outputId : option string)
    : list Delivery :=
  if negb (isConnected this) then []
  else
    match truthyId outputId with
    | Some i =>
        match mapGet i (outputs this) with
        | Some _ => [(i, message)]
        | None => []
        end
    | None => map (fun entry => (fst entry, message)) (outputs this)
    end.

Definition sendNoteOn (this : t) (note velocity channel : Z)
    (outputId : option string) : list Delivery :=
  if negb (isConnected this) then []
  else
    let message := [144 + channel; note; velocity] in
    sendMessage this message outputId.

Definition sendNoteOff (this : t) (note channel : Z) (outputId : option string)
    : list Delivery :=
  if negb (isConnected this) then []
  else
    let message := [128 + channel; note; 0] in
    sendMessage this message outputId.

(** [getOutputs()]: the pairs [{ id, name }], with [name] defaulting to
    [`MIDI Output ${id}`]. *)
Definition getOutputs (this : t) : list (string * string) :=
  map (fun entry =>
         (fst entry,
          if String.eqb (name (snd entry)) ""%string
          then ("MIDI Output " ++ fst entry)%string
          else name (snd entry)))
      (outputs this).

Definition disconnect (this : t) : t :=
  {| outputs := []; isConnected := false |}.

End MIDIManager.

(** ** Vocabulary of the further properties *)

Module Clock.

(** No frame of the events comes before the start time of the session,
    which the first frame sets when it is still [null]. *)
Fixpoint afterStart (startTime : option Q) (events : list App.Event) : Prop :=
  match events with
  | [] => True
  | App.AnimationFrame f :: rest =>
      let s := match startTime with None => Frame.now f | Some s => s end in
      (s <= Frame.now f)%Q /\ afterStart (Some s) rest
  | _ :: rest => afterStart startTime rest
  end.

(** The event is no voiced frame. *)
Definition unvoiced (e : App.Event) : Prop :=
  match e with
  | App.AnimationFrame f => Properties.voiced f = false
  | _ => True
  end.

(** The note fills one cell of the grid and has a MIDI pitch. *)
Definition inGrid (r : Render.t) (n : Note.t) : Prop :=
  0 <= Note.startPosition n < App.totalPositions r
  /\ Note.endPosition n = Note.startPosition n + 1
  /\ 0 <= Note.pitch n <= 127.

End Clock.

(** A session in which one A4 has been sung on the first frame. *)
Module Replay.

Definition firstNote : App.State Session.mm :=
  fst (App.run Session.render [App.AnimationFrame (Session.sung 1 440)]
         Session.started).

(** The same session stopped and started again. *)
Definition restarted : App.State Session.mm := App.startAudioAnalysis firstNote.

(** An A4 held since the fourth cell, and the render that sees it. *)
Definition held : NoteState.Active :=
  {| NoteState.pitch := 440;
     NoteState.startTime := 1 # 4;
     NoteState.startPosition := 4;
     NoteState.lastUpdateTime := 1 # 4 |}.

Definition holding : Render.t :=
  {| Render.bpm := 120;
     Render.gridDivision := 8;
     Render.numberOfBars := 4;
     Render.maxNoteDuration := 32;
     Render.isWaitingForMagenta := false;
     Render.currentNoteState := Some held |}.

End Replay.

(** * Properties *)

(** ** Facts about the JavaScript arithmetic *)

Module JSFacts.

Lemma gt_spec (a b : Q) : JS.gt a b = true <-> (b < a)%Q.
Proof.
  unfold JS.gt. rewrite negb_true_iff.
  split.
  - intros H. apply Qnot_le_lt. intros Hle.
    apply Qle_bool_iff in Hle. congruence.
  - intros H. destruct (Qle_bool a b) eqn:E; [|reflexivity].
    apply Qle_bool_iff in E. exfalso. exact (Qlt_not_le _ _ H E).
Qed.

Lemma gt_false (a b : Q) : JS.gt a b = false <-> (a <= b)%Q.
Proof.
  unfold JS.gt. rewrite negb_false_iff. apply Qle_bool_iff.
Qed.

Lemma gt_irrefl (a b : Q) : JS.gt (a - a) b = true -> (b < 0)%Q.
Proof.
  rewrite gt_spec. intros H.
  assert (E : (a - a == 0)%Q) by ring.
  rewrite E in H. exact H.
Qed.

Lemma inject_Z_pos (z : Z) : 0 < z -> (0 < inject_Z z)%Q.
Proof. intros H. unfold Qlt. simpl. lia. Qed.

(** [Math.round] commutes with adding an integer. *)
Lemma Math_round_add_Z (x : Q) (n : Z) :
  JS.Math_round (x + inject_Z n) = JS.Math_round x + n.
Proof.
  unfold JS.Math_round.
  assert (E : (x + inject_Z n + (1 # 2) == (x + (1 # 2)) + inject_Z n)%Q) by ring.
  rewrite E. clear E.
  destruct (x + (1 # 2))%Q as [a b].
  unfold Qplus, inject_Z, Qfloor. simpl.
  rewrite Z.mul_1_r, Pos.mul_1_r.
  apply Z.div_add. discriminate.
Qed.

Lemma Math_round_nonneg (x : Q) : (0 <= x)%Q -> 0 <= JS.Math_round x.
Proof.
  intros H. unfold JS.Math_round.
  change 0 with (Qfloor 0).
  apply Qfloor_resp_le.
  apply Qle_trans with x; [exact H|].
  rewrite <- (Qplus_0_r x) at 1.
  apply Qplus_le_r. discriminate.
Qed.


Lemma floor_log2_bounds (n : Z) (d : positive) :
  0 < n ->
  let k := JS.floor_log2 (n # d) in
  (0 <= k -> Zpos d * 2 ^ k <= n < Zpos d * 2 ^ (k + 1))
  /\ (k < 0 -> n * 2 ^ (- k - 1) < Zpos d <= n * 2 ^ (- k)).
Proof.
  intros Hn. unfold JS.floor_log2. cbn [Qnum Qden].
  destruct (Z.log2_spec n Hn) as [Ha1 Ha2].
  destruct (Z.log2_spec (Zpos d) (Pos2Z.is_pos d)) as [Hb1 Hb2].
  assert (Ha0 := Z.log2_nonneg n).
  assert (Hb0 := Z.log2_nonneg (Zpos d)).
  set (a := Z.log2 n) in *. set (b := Z.log2 (Zpos d)) in *.
  rewrite <- Z.add_1_r in Ha2, Hb2.
  destruct (0 <=? a - b) eqn:Hk.
  - apply Z.leb_le in Hk.
    assert (Ea : 2 ^ a = 2 ^ b * 2 ^ (a - b))
      by (rewrite <- Z.pow_add_r by lia; f_equal; lia).
    assert (Hp : 0 < 2 ^ (a - b)) by (apply Z.pow_pos_nonneg; lia).
    assert (Hpb : 0 < 2 ^ b) by (apply Z.pow_pos_nonneg; lia).
    destruct (Zpos d * 2 ^ (a - b) <=? n) eqn:T.
    + apply Z.leb_le in T. split; [|lia]. intros _. split; [exact T|].
      rewrite Z.pow_add_r by lia. rewrite Z.pow_add_r in Ha2 by lia.
      change (2 ^ 1) with 2 in *. nia.
    + apply Z.leb_gt in T.
      destruct (Z.eq_dec (a - b) 0) as [E0|E0].
      * rewrite E0 in *. cbn. change (2 ^ 0) with 1 in T.
        split; [lia|]. intros _. rewrite Z.pow_add_r in Hb2 by lia.
        change (2 ^ 1) with 2 in *. assert (a = b) by lia. subst a. nia.
      * split; [|lia]. intros _.
        replace (a - b - 1 + 1) with (a - b) by lia. split; [|exact T].
        assert (E1 : 2 ^ (a - b) = 2 * 2 ^ (a - b - 1)).
        { replace (a - b) with (1 + (a - b - 1)) at 1 by lia.
          rewrite Z.pow_add_r by lia. reflexivity. }
        rewrite Z.pow_add_r in Hb2 by lia. change (2 ^ 1) with 2 in *.
        assert (Hq : 0 < 2 ^ (a - b - 1)) by (apply Z.pow_pos_nonneg; lia).
        nia.
  - apply Z.leb_gt in Hk.
    assert (Eb : 2 ^ b = 2 ^ a * 2 ^ (- (a - b)))
      by (rewrite <- Z.pow_add_r by lia; f_equal; lia).
    assert (Hp : 0 < 2 ^ (- (a - b))) by (apply Z.pow_pos_nonneg; lia).
    assert (Hpa : 0 < 2 ^ a) by (apply Z.pow_pos_nonneg; lia).
    assert (E1 : 2 ^ (- (a - b)) = 2 * 2 ^ (- (a - b) - 1)).
    { replace (- (a - b)) with (1 + (- (a - b) - 1)) at 1 by lia.
      rewrite Z.pow_add_r by lia. reflexivity. }
    assert (Hq : 0 < 2 ^ (- (a - b) - 1)) by (apply Z.pow_pos_nonneg; lia).
    rewrite Z.pow_add_r in Ha2, Hb2 by lia. change (2 ^ 1) with 2 in *.
    destruct (Zpos d <=? n * 2 ^ (- (a - b))) eqn:T.
    + apply Z.leb_le in T. split; [lia|]. intros _. split; [|exact T]. nia.
    + apply Z.leb_gt in T. split; [lia|]. intros _.
      replace (- (a - b - 1) - 1) with (- (a - b)) by lia.
      replace (- (a - b - 1)) with (- (a - b) + 1) by lia.
      rewrite Z.pow_add_r by lia. change (2 ^ 1) with 2.
      split; [exact T|]. nia.
Qed.

Lemma pow2_Q (e : Z) : 0 <= e -> (2 ^ e == inject_Z (2 ^ e))%Q.
Proof. intros H. symmetry. exact (Zpower_Qpower 2 e H). Qed.

Lemma pow2_le_nonneg (n : Z) (d : positive) (e : Z) :
  0 <= e -> Zpos d * 2 ^ e <= n -> (2 ^ e <= n # d)%Q.
Proof.
  intros He H. rewrite (pow2_Q e He). unfold Qle. cbn. lia.
Qed.

Lemma pow2_gt_nonneg (n : Z) (d : positive) (e : Z) :
  0 <= e -> n < Zpos d * 2 ^ e -> (n # d < 2 ^ e)%Q.
Proof.
  intros He H. rewrite (pow2_Q e He). unfold Qlt. cbn. lia.
Qed.

Lemma pow2_neg (e : Z) : e < 0 -> (2 ^ e == 1 / inject_Z (2 ^ (- e)))%Q.
Proof.
  intros He.
  replace e with (- (- e)) at 1 by lia.
  rewrite Qpower_opp, (pow2_Q (- e)) by lia.
  unfold Qdiv. rewrite Qmult_1_l. reflexivity.
Qed.

Lemma pow2_le_neg (n : Z) (d : positive) (e : Z) :
  e < 0 -> Zpos d <= n * 2 ^ (- e) -> (2 ^ e <= n # d)%Q.
Proof.
  intros He H. rewrite (pow2_neg e He).
  assert (Hp : 0 < 2 ^ (- e)) by (apply Z.pow_pos_nonneg; lia).
  apply Qle_shift_div_r.
  - unfold Qlt. cbn. lia.
  - unfold Qle. cbn. lia.
Qed.

Lemma pow2_gt_neg (n : Z) (d : positive) (e : Z) :
  e < 0 -> n * 2 ^ (- e) < Zpos d -> (n # d < 2 ^ e)%Q.
Proof.
  intros He H. rewrite (pow2_neg e He).
  assert (Hp : 0 < 2 ^ (- e)) by (apply Z.pow_pos_nonneg; lia).
  apply Qlt_shift_div_l.
  - unfold Qlt. cbn. lia.
  - unfold Qlt. cbn. lia.
Qed.

(** [floor_log2 q] is the integer [k] with [2^k <= q < 2^(k+1)]. *)
Lemma floor_log2_spec (q : Q) :
  (0 < q)%Q ->
  (2 ^ JS.floor_log2 q <= q)%Q /\ (q < 2 ^ (JS.floor_log2 q + 1))%Q.
Proof.
  destruct q as [n d]. intros Hq.
  assert (Hn : 0 < n) by (unfold Qlt in Hq; cbn in Hq; lia).
  destruct (floor_log2_bounds n d Hn) as [B1 B2]. cbn zeta in B1, B2.
  destruct (Z_lt_le_dec (JS.floor_log2 (n # d)) 0) as [Hk|Hk].
  - destruct (B2 Hk) as [U L]. split.
    + apply pow2_le_neg; assumption.
    + destruct (Z.eq_dec (JS.floor_log2 (n # d) + 1) 0) as [E|E].
      * rewrite E. apply pow2_gt_nonneg; [lia|].
        replace (- JS.floor_log2 (n # d) - 1) with 0 in U by lia.
        change (2 ^ 0) with 1 in *. lia.
      * apply pow2_gt_neg; [lia|].
        replace (- (JS.floor_log2 (n # d) + 1))
          with (- JS.floor_log2 (n # d) - 1) by lia.
        exact U.
  - destruct (B1 Hk) as [L U]. split.
    + apply pow2_le_nonneg; assumption.
    + apply pow2_gt_nonneg; [lia | exact U].
Qed.

(** [midiNumber f] is the integer [m] with
    [m - 1/2 <= 69 + 12 log2 (f / 440) < m + 1/2], stated without the
    logarithm: [2^(2m - 139) <= (f / 440)^24 < 2^(2m - 137)]. *)
Lemma midiNumber_spec (f : Q) :
  (0 < f)%Q ->
  (2 ^ (2 * JS.midiNumber f - 139) <= (f / 440) ^ 24)%Q
  /\ ((f / 440) ^ 24 < 2 ^ (2 * JS.midiNumber f - 137))%Q.
Proof.
  intros Hf.
  assert (Hr : (0 < (f / 440) ^ 24)%Q).
  { apply Qpower_0_lt. apply Qlt_shift_div_l; [reflexivity|].
    rewrite Qmult_0_l. exact Hf. }
  destruct (floor_log2_spec _ Hr) as [L U].
  unfold JS.midiNumber.
  set (k := JS.floor_log2 ((f / 440) ^ 24)) in *.
  assert (Hdiv := Z.div_mod (139 + k) 2 ltac:(lia)).
  assert (Hmod := Z.mod_pos_bound (139 + k) 2 ltac:(lia)).
  split.
  - apply Qle_trans with (2 ^ k)%Q; [|exact L].
    apply Qpower_le_compat_l; [lia | discriminate].
  - apply Qlt_le_trans with (2 ^ (k + 1))%Q; [exact U|].
    apply Qpower_le_compat_l; [lia | discriminate].
Qed.

End JSFacts.

(** ** Grid positions *)

Section GridClock.

Variable r : Render.t.

Hypothesis bpm_pos : 0 < Render.bpm r.
Hypothesis gridDivision_pos : 0 < Render.gridDivision r.
Hypothesis numberOfBars_pos : 0 < Render.numberOfBars r.


Lemma secondsPerSubdivision_pos : (0 < App.secondsPerSubdivision r)%Q.
Proof.
  unfold App.secondsPerSubdivision.
  assert (Hb : (0 < inject_Z (Render.bpm r))%Q)
    by (apply JSFacts.inject_Z_pos; exact bpm_pos).
  assert (Hg : (0 < inject_Z (Render.gridDivision r))%Q)
    by (apply JSFacts.inject_Z_pos; exact gridDivision_pos).
  apply Qlt_shift_div_l; [exact Hg|].
  apply Qlt_shift_div_l; [exact Hb|].
  rewrite !Qmult_0_l. reflexivity.
Qed.


Lemma cells_nonneg (t : Q) :
  (0 <= t)%Q -> (0 <= t / App.secondsPerSubdivision r)%Q.
Proof.
  intros Ht.
  apply Qle_shift_div_l; [exact secondsPerSubdivision_pos|].
  rewrite Qmult_0_l. exact Ht.
Qed.


End GridClock.


(** ** Combining notes *)

Section NoteCombiner.

Import Properties.

Lemma fold_combineStep (rest : list Note.t) :
  forall (combinedNotes : list Note.t) (current : Note.t),
    (let (combined, currentNote) :=
       fold_left App.combineStep rest (combinedNotes, Some current) in
     match currentNote with
     | Some c => combined ++ [c]
     | None => combined
     end)
    = combinedNotes ++ combineFrom current rest.
Proof.
  induction rest as [|note rest IH]; intros combinedNotes current.
  - reflexivity.
  - cbn [fold_left App.combineStep combineFrom].
    destruct (Note.pitch note =? Note.pitch current).
    + apply IH.
    + rewrite IH. rewrite <- app_assoc. reflexivity.
Qed.

Lemma combineNotes_cons (note : Note.t) (rest : list Note.t) :
  App.combineNotes (note :: rest) = combineFrom note rest.
Proof.
  unfold App.combineNotes. cbn [fold_left App.combineStep].
  exact (fold_combineStep rest [] note).
Qed.


(** The first combined note carries the pitch of the accumulator. *)
Lemma combineFrom_head (rest : list Note.t) :
  forall current,
    exists first tail,
      combineFrom current rest = first :: tail
      /\ Note.pitch first = Note.pitch current.
Proof.
  induction rest as [|note rest IH]; intros current; cbn [combineFrom].
  - exists current, []. split; reflexivity.
  - destruct (Note.pitch note =? Note.pitch current).
    + destruct (IH (Note.extend current (Note.endTime note) (Note.endPosition note)))
        as (first & tail & E & Hp).
      exists first, tail. split; [exact E | exact Hp].
    + exists current, (combineFrom note rest). split; reflexivity.
Qed.

Lemma combineFrom_noAdjacentPitch (rest : list Note.t) :
  forall current, noAdjacentPitch (combineFrom current rest).
Proof.
  induction rest as [|note rest IH]; intros current; cbn [combineFrom].
  - simpl. split; exact I.
  - destruct (Note.pitch note =? Note.pitch current) eqn:E.
    + apply IH.
    + destruct (combineFrom_head rest note) as (first & tail & Eq & Hp).
      specialize (IH note). rewrite Eq in *.
      cbn [noAdjacentPitch]. split; [|exact IH].
      rewrite Hp. apply Z.eqb_neq in E. congruence.
Qed.


End NoteCombiner.

(** ** [generateResponse] *)

Section GenerateResponse.

Variable mm : Magenta.Library.

Local Abbreviation manager := (MagentaManager.initialized MagentaManager.constructor).

Lemma filter_none {A : Type} (keep : A -> bool) (xs : list A) :
  Forall (fun x => keep x = false) xs -> filter keep xs = [].
Proof.
  induction 1 as [|x xs Hx _ IH]; [reflexivity|].
  simpl. rewrite Hx. exact IH.
Qed.

(** C10. When no note has its pitch in [48, 83], an initialized
    [generateResponse] resolves to the empty list and the model is not
    invoked; in general the notes passed on are exactly the notes in
    range, with their own pitches. *)
Theorem generateResponse_drops_notes_out_of_range
    (notes : list Magenta.t) (temperature : Q) :
  (Forall (fun note => Magenta.pitch note < 48 \/ 83 < Magenta.pitch note) notes ->
   MagentaManager.generateResponse mm manager notes temperature = Return []
   /\ invokesModel (MagentaManager.generateResponse mm manager notes temperature)
      = false)
  /\ (let valid :=
        filter (fun note => (48 <=? Magenta.pitch note) && (Magenta.pitch note <=? 83))
          notes in
      valid <> [] ->
      exists sequence k,
        MagentaManager.generateResponse mm manager notes temperature
        = ContinueSequence (Magenta.quantizeNoteSequence mm sequence 4) 32 temperature k
        /\ map Magenta.pitch (Magenta.notes sequence) = map Magenta.pitch valid).
Proof.
  split.
  - intros Hout.
    assert (E : filter (MagentaManager.isValid manager) notes = []).
    { apply filter_none.
      eapply Forall_impl; [|exact Hout].
      intros note H. unfold MagentaManager.isValid. simpl.
      apply andb_false_iff.
      destruct H as [H|H]; [left; apply Z.leb_gt | right; apply Z.leb_gt]; exact H. }
    unfold MagentaManager.generateResponse. simpl. rewrite E. simpl.
    split; reflexivity.
  - intros valid Hne.
    unfold MagentaManager.generateResponse. simpl.
    change (filter (MagentaManager.isValid manager) notes) with valid.
    destruct valid as [|v valid'] eqn:Ev; [contradiction|].
    cbn [List.length Z.of_nat Z.eqb].
    eexists. eexists. split; [reflexivity|].
    cbn [Magenta.notes]. rewrite map_map. reflexivity.
Qed.

End GenerateResponse.

(** C10 on two notes below and above the range. *)
Lemma generateResponse_drops_notes_out_of_range_witness :
  MagentaManager.generateResponse Session.mm
    (MagentaManager.initialized MagentaManager.constructor)
    [ {| Magenta.pitch := 30; Magenta.startTime := 0; Magenta.endTime := 1;
         Magenta.velocity := 100 |};
      {| Magenta.pitch := 90; Magenta.startTime := 1; Magenta.endTime := 2;
         Magenta.velocity := 100 |} ] 1
  = Return [].
Proof.
  refine (proj1 (proj1
    (generateResponse_drops_notes_out_of_range Session.mm _ 1) _)).
  repeat constructor; simpl; lia.
Defined.

(** ** The analysis loop, block by block *)

Section Loop.

Import Properties.

Variable mm : Magenta.Library.
Variable r : Render.t.

Implicit Types st : App.State mm.

Lemma thenCatchFinally_keepsNotes (c : Async mm (list Magenta.t)) st :
  keepsNotes st (App.thenCatchFinally r c st).
Proof.
  unfold keepsNotes, App.thenCatchFinally.
  destruct c as [response | message | q s t k].
  - destruct (0 <? Z.of_nat (List.length response)); repeat split; reflexivity.
  - repeat split; reflexivity.
  - repeat split; reflexivity.
Qed.

Lemma onLoopEnd_keepsNotes st :
  keepsNotes st (fst (App.onLoopEnd r st)).
Proof.
  unfold App.onLoopEnd.
  destruct (negb (Note.list_eqb (App.userNotesRef st) (App.previousNotesRef st))
            && negb (Render.isWaitingForMagenta r)).
  - cbn [App.magentaManager App.setReact App.setPreviousNotesRef].
    destruct (App.magentaManager st) as [m|]; cbn [fst].
    + match goal with
      | |- keepsNotes _ (App.thenCatchFinally _ ?c ?s) =>
          destruct (thenCatchFinally_keepsNotes c s) as (H1 & H2 & H3 & H4 & H5)
      end.
      unfold keepsNotes. rewrite H1, H2, H3, H4, H5. repeat split; reflexivity.
    + repeat split; reflexivity.
  - repeat split; reflexivity.
Qed.

Lemma ended_keepsNotes (atLoopEnd : bool) st :
  keepsNotes st (fst (if atLoopEnd then App.onLoopEnd r st else (st, []))).
Proof.
  destruct atLoopEnd.
  - apply onLoopEnd_keepsNotes.
  - cbn. repeat split.
Qed.

(** [loop] as the composition of its blocks. *)
Lemma loop_blocks (f : Frame.t) st :
  App.loop r f st =
  let isSoundDetected := JS.gt (Frame.currentEnergy f) App.VOLUME_THRESHOLD in
  let relativeTime := (Frame.now f - App.startTimeOf f st)%Q in
  let st0 := App.setListen (Listen.setStartTime (Some (App.startTimeOf f st))) st in
  let p := App.positionOf r f st in
  let atLoopEnd :=
    App.isLoopEnd p (Listen.lastLoopEndPosition (App.listen st)) (App.totalPositions r) in
  let ended := if atLoopEnd then App.onLoopEnd r st0 else (st0, []) in
  let st1 := App.setListen (Listen.setLastLoopEndPosition p) (fst ended) in
  let detected := App.detectNote r f isSoundDetected p relativeTime st1 in
  let displayed := App.updatePitchDisplay r f isSoundDetected (fst detected) in
  (fst displayed,
   {| App.loopEnd := atLoopEnd;
      App.sent := snd ended;
      App.closed := snd detected + snd displayed |}).
Proof.
  unfold App.loop, App.positionOf. cbn zeta.
  cbn [App.listen App.setListen Listen.lastLoopEndPosition Listen.setStartTime].
  match goal with
  | |- context [if ?e then App.onLoopEnd r ?s else _] =>
      destruct (if e then App.onLoopEnd r s else (s, [])) as [st1 sent]
  end.
  cbn [fst snd].
  match goal with
  | |- context [App.detectNote r f ?a ?b ?c ?d] =>
      destruct (App.detectNote r f a b c d) as [st2 closed1]
  end.
  cbn [fst snd].
  match goal with
  | |- context [App.updatePitchDisplay r f ?a ?b] =>
      destruct (App.updatePitchDisplay r f a b) as [st3 closed2]
  end.
  reflexivity.
Qed.

Lemma handleNoteEnd_inactive (time : Q) st :
  Render.currentNoteState r = None -> App.handleNoteEnd r time st = (st, 0%nat).
Proof. intros H. unfold App.handleNoteEnd. rewrite H. reflexivity. Qed.

(** [handleNoteEnd] writes React state only. *)
Lemma handleNoteEnd_refs (time : Q) st :
  App.listen (fst (App.handleNoteEnd r time st)) = App.listen st
  /\ App.modeRef (fst (App.handleNoteEnd r time st)) = App.modeRef st
  /\ App.userNotesRef (fst (App.handleNoteEnd r time st)) = App.userNotesRef st
  /\ (snd (App.handleNoteEnd r time st) <= 1)%nat.
Proof.
  unfold App.handleNoteEnd.
  destruct (Render.currentNoteState r); cbn; repeat split; lia.
Qed.

(** The two silence blocks may only move [silenceStartTime]. *)
Lemma detectNote_listen (f : Frame.t) (sound : bool) (p : Z) (t : Q) st :
  let st' := fst (App.detectNote r f sound p t st) in
  Listen.lastLoopEndPosition (App.listen st') = Listen.lastLoopEndPosition (App.listen st)
  /\ Listen.startTime (App.listen st') = Listen.startTime (App.listen st)
  /\ App.modeRef st' = App.modeRef st.
Proof.
  unfold App.detectNote.
  destruct sound.
  - destruct (Frame.findPitch f) as [pitch clarity].
    destruct (JS.truthy pitch && JS.gt clarity (7 # 10)); cbn; repeat split.
  - destruct (NoteState.isActive (Render.currentNoteState r)); [|cbn; repeat split].
    destruct (Listen.silenceStartTime (App.listen st)) as [s|]; [|cbn; repeat split].
    destruct (negb (JS.truthy s)); [cbn; repeat split|].
    destruct (JS.gt (Frame.now f - s) (1 # 10)); [|cbn; repeat split].
    destruct (handleNoteEnd_refs (Frame.now f) st) as (H1 & H2 & _).
    destruct (App.handleNoteEnd r (Frame.now f) st) as [st1 n].
    cbn in *. rewrite H1, H2. repeat split.
Qed.

Lemma updatePitchDisplay_listen (f : Frame.t) (sound : bool) st :
  let st' := fst (App.updatePitchDisplay r f sound st) in
  Listen.lastLoopEndPosition (App.listen st') = Listen.lastLoopEndPosition (App.listen st)
  /\ Listen.startTime (App.listen st') = Listen.startTime (App.listen st)
  /\ App.modeRef st' = App.modeRef st.
Proof.
  unfold App.updatePitchDisplay.
  destruct sound; [cbn; repeat split|].
  set (st0 := if NoteState.isActive (Render.currentNoteState r)
                 && negb (JS.truthy_opt (Listen.silenceStartTime (App.listen st)))
              then App.setListen (Listen.setSilenceStartTime (Some (Frame.now f))) st
              else st).
  assert (H0 : Listen.lastLoopEndPosition (App.listen st0)
               = Listen.lastLoopEndPosition (App.listen st)
               /\ Listen.startTime (App.listen st0) = Listen.startTime (App.listen st)
               /\ App.modeRef st0 = App.modeRef st).
  { unfold st0.
    destruct (NoteState.isActive (Render.currentNoteState r)
              && negb (JS.truthy_opt (Listen.silenceStartTime (App.listen st))));
      cbn; repeat split. }
  destruct H0 as (E1 & E2 & E3).
  destruct (Listen.silenceStartTime (App.listen st0)) as [s|];
    [|cbn; rewrite E1, E2, E3; repeat split].
  destruct (JS.truthy s && JS.gt (Frame.now f - s) App.SILENCE_THRESHOLD);
    [|cbn; rewrite E1, E2, E3; repeat split].
  destruct (handleNoteEnd_refs s st0) as (H1 & H2 & _).
  destruct (App.handleNoteEnd r s st0) as [st1 n].
  cbn in *. rewrite H1, H2, E1, E2, E3. repeat split.
Qed.

(** What every frame does to the variables of [listen], and when it
    reports a loop end. *)
Lemma loop_listen (f : Frame.t) st :
  let p := App.positionOf r f st in
  Listen.startTime (App.listen (fst (App.loop r f st))) = Some (App.startTimeOf f st)
  /\ Listen.lastLoopEndPosition (App.listen (fst (App.loop r f st))) = p
  /\ App.loopEnd (snd (App.loop r f st))
     = App.isLoopEnd p (Listen.lastLoopEndPosition (App.listen st)) (App.totalPositions r)
  /\ App.modeRef (fst (App.loop r f st)) = App.modeRef st.
Proof.
  rewrite loop_blocks. cbn zeta. cbn [fst snd App.loopEnd].
  set (st0 := App.setListen (Listen.setStartTime (Some (App.startTimeOf f st))) st).
  set (atLoopEnd := App.isLoopEnd _ _ _).
  set (ended := if atLoopEnd then App.onLoopEnd r st0 else (st0, [])).
  assert (K : keepsNotes st0 (fst ended)) by apply ended_keepsNotes.
  destruct K as (K1 & _ & K3 & _).
  set (st1 := App.setListen (Listen.setLastLoopEndPosition (App.positionOf r f st)) (fst ended)).
  set (sound := JS.gt (Frame.currentEnergy f) App.VOLUME_THRESHOLD).
  set (t := (Frame.now f - App.startTimeOf f st)%Q).
  destruct (detectNote_listen f sound (App.positionOf r f st) t st1) as (D1 & D2 & D3).
  destruct (updatePitchDisplay_listen f sound
              (fst (App.detectNote r f sound (App.positionOf r f st) t st1)))
    as (U1 & U2 & U3).
  cbn zeta in *.
  rewrite U1, U2, U3, D1, D2, D3.
  unfold st1. cbn. rewrite K1, K3. unfold st0. cbn.
  repeat split.
Qed.

(** *** Loop-end detection *)







(** *** Commits *)

(** A voiced frame commits the one-cell note of its position and closes
    nothing. *)
Lemma loop_voiced (f : Frame.t) st :
  voiced f = true ->
  let newNotes :=
    App.commitNote (App.modeRef st)
      (noteOfFrame r (App.positionOf r f st) (Frame.now f - App.startTimeOf f st)
         (fst (Frame.findPitch f)))
      (React.userNotes (App.react st)) in
  React.userNotes (App.react (fst (App.loop r f st))) = newNotes
  /\ App.userNotesRef (fst (App.loop r f st)) = newNotes
  /\ App.closed (snd (App.loop r f st)) = 0%nat
  /\ React.currentNoteState (App.react (fst (App.loop r f st)))
     = React.currentNoteState (App.react st).
Proof.
  unfold voiced. rewrite !andb_true_iff. intros [[Hsound Hpitch] Hclarity].
  rewrite loop_blocks. cbn zeta. cbn [fst snd App.closed].
  rewrite Hsound.
  set (st0 := App.setListen (Listen.setStartTime (Some (App.startTimeOf f st))) st).
  set (atLoopEnd := App.isLoopEnd _ _ _).
  set (ended := if atLoopEnd then App.onLoopEnd r st0 else (st0, [])).
  assert (K : keepsNotes st0 (fst ended)) by apply ended_keepsNotes.
  destruct K as (_ & _ & K3 & K4 & K5).
  cbn in K3, K4, K5.
  unfold App.detectNote, App.updatePitchDisplay.
  destruct (Frame.findPitch f) as [pitch clarity]. cbn [fst snd] in *.
  rewrite Hpitch, Hclarity. cbn.
  rewrite K3, K4, K5. repeat split.
Qed.

(** With no active note in the render, a frame that is not voiced leaves
    the notes alone, and no frame closes anything. *)
Lemma loop_inactive (f : Frame.t) st :
  Render.currentNoteState r = None ->
  App.closed (snd (App.loop r f st)) = 0%nat
  /\ React.currentNoteState (App.react (fst (App.loop r f st)))
     = React.currentNoteState (App.react st)
  /\ (voiced f = false ->
      React.userNotes (App.react (fst (App.loop r f st)))
      = React.userNotes (App.react st)
      /\ App.userNotesRef (fst (App.loop r f st)) = App.userNotesRef st).
Proof.
  intros Hnone.
  rewrite loop_blocks. cbn zeta. cbn [fst snd App.closed].
  set (st0 := App.setListen (Listen.setStartTime (Some (App.startTimeOf f st))) st).
  set (atLoopEnd := App.isLoopEnd _ _ _).
  set (ended := if atLoopEnd then App.onLoopEnd r st0 else (st0, [])).
  assert (K : keepsNotes st0 (fst ended)) by apply ended_keepsNotes.
  destruct K as (_ & K2 & K3 & K4 & K5).
  cbn in K2, K3, K4, K5.
  unfold voiced, App.detectNote, App.updatePitchDisplay.
  rewrite Hnone. cbn [NoteState.isActive andb].
  destruct (JS.gt (Frame.currentEnergy f) App.VOLUME_THRESHOLD).
  - destruct (Frame.findPitch f) as [pitch clarity]. cbn [fst snd andb].
    destruct (JS.truthy pitch && JS.gt clarity (7 # 10)).
    + cbn. rewrite K5. repeat split; discriminate.
    + cbn. rewrite K2, K4, K5. repeat split.
  - cbn [fst snd andb].
    match goal with
    | |- context [Listen.silenceStartTime ?l] =>
        destruct (Listen.silenceStartTime l) as [s|]
    end.
    + destruct (JS.truthy s && JS.gt (Frame.now f - s) App.SILENCE_THRESHOLD).
      * rewrite (handleNoteEnd_inactive s _ Hnone). cbn.
        rewrite K2, K4, K5. repeat split.
      * cbn. rewrite K2, K4, K5. repeat split.
    + cbn. rewrite K2, K4, K5. repeat split.
Qed.

(** The fallback block closes nothing when the silence timer is unset,
    falsy, or at most 200 ms old. *)
Lemma updatePitchDisplay_silence_young (f : Frame.t) st :
  (forall q,
     Listen.silenceStartTime (App.listen st) = Some q ->
     JS.truthy q = true ->
     JS.gt (Frame.now f - q) App.SILENCE_THRESHOLD = false) ->
  snd (App.updatePitchDisplay r f false st) = 0%nat.
Proof.
  intros Hyoung. unfold App.updatePitchDisplay.
  assert (Hself : JS.gt (Frame.now f - Frame.now f) App.SILENCE_THRESHOLD = false).
  { destruct (JS.gt (Frame.now f - Frame.now f) App.SILENCE_THRESHOLD) eqn:G;
      [|reflexivity].
    apply JSFacts.gt_irrefl in G. discriminate. }
  destruct (NoteState.isActive (Render.currentNoteState r)
            && negb (JS.truthy_opt (Listen.silenceStartTime (App.listen st)))).
  - cbn [App.listen App.setListen Listen.silenceStartTime Listen.setSilenceStartTime].
    rewrite Hself, andb_false_r. reflexivity.
  - destruct (Listen.silenceStartTime (App.listen st)) as [q|]; [|reflexivity].
    destruct (JS.truthy q) eqn:Hq; [|reflexivity].
    rewrite (Hyoung q eq_refl Hq). reflexivity.
Qed.

(** The 100 ms block, when a note is active in the render: it closes at
    most once, and either way leaves a timer that the fallback block
    cannot fire on in the same frame. *)
Lemma detectNote_silence_active (f : Frame.t) (p : Z) (t : Q) st :
  NoteState.isActive (Render.currentNoteState r) = true ->
  let detected := App.detectNote r f false p t st in
  (snd detected <= 1)%nat
  /\ (forall q,
        Listen.silenceStartTime (App.listen (fst detected)) = Some q ->
        JS.truthy q = true ->
        JS.gt (Frame.now f - q) App.SILENCE_THRESHOLD = false).
Proof.
  intros Hactive. unfold App.detectNote. rewrite Hactive.
  assert (Hself : JS.gt (Frame.now f - Frame.now f) App.SILENCE_THRESHOLD = false).
  { destruct (JS.gt (Frame.now f - Frame.now f) App.SILENCE_THRESHOLD) eqn:G;
      [|reflexivity].
    apply JSFacts.gt_irrefl in G. discriminate. }
  destruct (Listen.silenceStartTime (App.listen st)) as [s|] eqn:Hs.
  - destruct (JS.truthy s) eqn:Htruthy; cbn [negb].
    + destruct (JS.gt (Frame.now f - s) (1 # 10)) eqn:G.
      * destruct (handleNoteEnd_refs (Frame.now f) st) as (_ & _ & _ & H4).
        destruct (App.handleNoteEnd r (Frame.now f) st) as [st1 n].
        cbn in *. split; [exact H4|]. intros q Hq. discriminate.
      * cbn [fst snd]. split; [lia|].
        intros q Hq _. rewrite Hs in Hq. injection Hq as <-.
        apply JSFacts.gt_false. apply JSFacts.gt_false in G.
        apply Qle_trans with (1 # 10)%Q; [exact G | discriminate].
    + cbn. split; [lia|]. intros q Hq _. injection Hq as <-. exact Hself.
  - cbn. split; [lia|]. intros q Hq _. injection Hq as <-. exact Hself.
Qed.

(** The two silence thresholds never both close in one frame. *)
Lemma loop_closes_at_most_once (f : Frame.t) st :
  (App.closed (snd (App.loop r f st)) <= 1)%nat.
Proof.
  destruct (Render.currentNoteState r) as [cur|] eqn:Hcur.
  - rewrite loop_blocks. cbn zeta. cbn [fst snd App.closed].
    set (st1 := App.setListen _ (fst _)).
    generalize st1 as s. clear st1. intros s.
    generalize (App.positionOf r f st) as p.
    generalize (Frame.now f - App.startTimeOf f st)%Q as t. intros t p.
    destruct (JS.gt (Frame.currentEnergy f) App.VOLUME_THRESHOLD).
    + unfold App.detectNote, App.updatePitchDisplay.
      destruct (Frame.findPitch f) as [pitch clarity].
      destruct (JS.truthy pitch && JS.gt clarity (7 # 10)); cbn; lia.
    + assert (Hactive : NoteState.isActive (Render.currentNoteState r) = true)
        by (rewrite Hcur; reflexivity).
      destruct (detectNote_silence_active f p t s Hactive) as (H1 & H2).
      cbn zeta in *.
      rewrite (updatePitchDisplay_silence_young f _ H2). lia.
  - destruct (loop_inactive f st Hcur) as (H & _). rewrite H. lia.
Qed.

(** *** The two write policies *)

Lemma existsb_same (note : Note.t) (prev : list Note.t) :
  existsb (fun n => (Note.startPosition n =? Note.startPosition note)
                    && (Note.pitch n =? Note.pitch note)) prev = true
  <-> exists n, In n prev
                /\ Note.startPosition n = Note.startPosition note
                /\ Note.pitch n = Note.pitch note.
Proof.
  rewrite existsb_exists. split.
  - intros (n & Hin & H). apply andb_true_iff in H.
    rewrite !Z.eqb_eq in H. exists n. tauto.
  - intros (n & Hin & H1 & H2). exists n. split; [exact Hin|].
    apply andb_true_iff. rewrite !Z.eqb_eq. tauto.
Qed.

(** C6. In Add mode a commit appends the note unless a note with the same
    start position and pitch is there, and then leaves the store as it is;
    in Replace mode it removes the notes that start at the incoming note's
    start position, whatever their pitch, and appends the incoming note.
    Every note of the new store is the incoming note or a note of the old
    store, unchanged.  The loop and [handleNoteEnd] both commit this way,
    with the mode read from [modeRef] at the commit. *)
Theorem commitNote_adds_or_replaces (note : Note.t) (prev : list Note.t) :
  ((exists n, In n prev
              /\ Note.startPosition n = Note.startPosition note
              /\ Note.pitch n = Note.pitch note) ->
   App.commitNote true note prev = prev)
  /\ ((forall n, In n prev ->
         ~ (Note.startPosition n = Note.startPosition note
            /\ Note.pitch n = Note.pitch note)) ->
      App.commitNote true note prev = prev ++ [note])
  /\ (exists kept,
        App.commitNote false note prev = kept ++ [note]
        /\ kept = filter (fun n => negb (Note.startPosition n =? Note.startPosition note)) prev
        /\ forall n, In n kept <->
                     In n prev /\ Note.startPosition n <> Note.startPosition note)
  /\ (forall (isAddMode : bool) (n : Note.t),
        In n (App.commitNote isAddMode note prev) -> n = note \/ In n prev)
  /\ (forall (f : Frame.t) (st : App.State mm),
        voiced f = true ->
        React.userNotes (App.react (fst (App.loop r f st)))
        = App.commitNote (App.modeRef st)
            (noteOfFrame r (App.positionOf r f st)
               (Frame.now f - App.startTimeOf f st) (fst (Frame.findPitch f)))
            (React.userNotes (App.react st)))
  /\ (forall (time : Q) (st : App.State mm) (active : NoteState.Active),
        Render.currentNoteState r = Some active ->
        React.userNotes (App.react (fst (App.handleNoteEnd r time st)))
        = App.commitNote (App.modeRef st)
            {| Note.pitch := JS.midiNumber (NoteState.pitch active);
               Note.startPosition := NoteState.startPosition active;
               Note.endPosition := App.calculatePosition r time;
               Note.startTime := NoteState.startTime active;
               Note.endTime := time;
               Note.velocity := None |}
            (React.userNotes (App.react st))).
Proof.
  split; [|split; [|split; [|split; [|split]]]].
  - intros H. apply existsb_same in H.
    unfold App.commitNote. rewrite H. reflexivity.
  - intros H. unfold App.commitNote.
    destruct (existsb _ prev) eqn:E; [|reflexivity].
    apply existsb_same in E. destruct E as (n & Hin & Hsame).
    exfalso. exact (H n Hin Hsame).
  - eexists. split; [reflexivity|]. split; [reflexivity|].
    intros n. rewrite filter_In, negb_true_iff, Z.eqb_neq. reflexivity.
  - intros isAddMode n. unfold App.commitNote.
    destruct isAddMode.
    + destruct (existsb _ prev).
      * intros H. right. exact H.
      * rewrite in_app_iff. cbn. intuition.
    + rewrite in_app_iff, filter_In. cbn. intuition.
  - intros f st Hv. exact (proj1 (loop_voiced f st Hv)).
  - intros time st active H. unfold App.handleNoteEnd. rewrite H. reflexivity.
Qed.

(** *** A held pitch *)












(** *** Dispatch to Magenta *)

Lemma thenCatchFinally_previousNotesRef (c : Async mm (list Magenta.t)) st :
  App.previousNotesRef (App.thenCatchFinally r c st) = App.previousNotesRef st.
Proof.
  unfold App.thenCatchFinally.
  destruct c as [response | message | q s t k]; [|reflexivity|reflexivity].
  destruct (0 <? Z.of_nat (List.length response)); reflexivity.
Qed.

(** At a loop end the request goes out exactly when the buffer differs
    from the snapshot, the render's [isWaitingForMagenta] is [false] and
    the manager is there; the requests already in flight play no part.
    The snapshot is replaced at once. *)
Lemma onLoopEnd_dispatch st :
  let hasBufferChanged :=
    negb (Note.list_eqb (App.userNotesRef st) (App.previousNotesRef st)) in
  (snd (App.onLoopEnd r st) <> [] <->
   hasBufferChanged = true
   /\ Render.isWaitingForMagenta r = false
   /\ App.magentaManager st <> None)
  /\ (hasBufferChanged = true ->
      Render.isWaitingForMagenta r = false ->
      App.previousNotesRef (fst (App.onLoopEnd r st)) = App.userNotesRef st).
Proof.
  unfold App.onLoopEnd. cbn zeta.
  destruct (negb (Note.list_eqb (App.userNotesRef st) (App.previousNotesRef st))).
  - destruct (Render.isWaitingForMagenta r); cbn [negb andb].
    + split; [|discriminate]. cbn. split; [intros H; contradiction|].
      intros (_ & H & _). discriminate.
    + cbn [App.magentaManager App.setReact App.setPreviousNotesRef].
      destruct (App.magentaManager st) as [manager|]; cbn [fst snd].
      * split.
        -- split; [intros _; repeat split; discriminate | discriminate].
        -- intros _ _. rewrite thenCatchFinally_previousNotesRef. reflexivity.
      * split; [|reflexivity].
        split; [intros H; contradiction|]. intros (_ & _ & H). contradiction.
  - cbn. split; [|discriminate].
    split; [intros H; contradiction|]. intros (H & _). discriminate.
Qed.

(** *** No note is ever active *)

Lemma step_keeps_inactive (e : App.Event) st :
  Render.currentNoteState r = None ->
  React.currentNoteState (App.react (fst (App.step r e st)))
  = React.currentNoteState (App.react st)
  /\ App.closed (snd (App.step r e st)) = 0%nat.
Proof.
  intros Hnone.
  destruct e as [f | | | i response | i]; cbn [App.step].
  - destruct (loop_inactive f st Hnone) as (H1 & H2 & _). split; assumption.
  - split; reflexivity.
  - split; reflexivity.
  - destruct (nth_error (App.inFlight st) i) as [p|]; [|split; reflexivity].
    cbn [fst snd]. split; [|reflexivity].
    match goal with
    | |- context [App.thenCatchFinally r ?c ?s] =>
        destruct (thenCatchFinally_keepsNotes c s) as (_ & _ & _ & _ & H)
    end.
    rewrite H. reflexivity.
  - destruct (nth_error (App.inFlight st) i) as [p|]; [|split; reflexivity].
    split; reflexivity.
Qed.

(** In a session whose render holds no active note, whatever happens, no
    note becomes active and [handleNoteEnd] never closes one. *)
Lemma run_never_active (events : list App.Event) :
  Render.currentNoteState r = None ->
  forall st,
    React.currentNoteState (App.react (fst (App.run r events st)))
    = React.currentNoteState (App.react st)
    /\ sumClosed (snd (App.run r events st)) = 0%nat.
Proof.
  intros Hnone.
  induction events as [|e events IH]; intros st.
  - split; reflexivity.
  - cbn [App.run].
    destruct (step_keeps_inactive e st Hnone) as (H1 & H2).
    destruct (App.step r e st) as [st1 l]. cbn [fst snd] in *.
    destruct (IH st1) as (IH1 & IH2).
    destruct (App.run r events st1) as [st2 ls]. cbn [fst snd] in *.
    split; [congruence|].
    cbn [sumClosed fold_right]. fold (sumClosed ls). rewrite H2, IH2. reflexivity.
Qed.

(** *** Magenta's answer *)


End Loop.

Import Properties.


(** C6 on a store that already holds the incoming note: Add mode keeps
    the store. *)
Lemma commitNote_adds_or_replaces_witness :
  App.commitNote true
    (noteOfFrame Session.render 0 0 440)
    [noteOfFrame Session.render 0 0 440]
  = [noteOfFrame Session.render 0 0 440].
Proof.
  refine (proj1
    (commitNote_adds_or_replaces Session.mm Session.render
       (noteOfFrame Session.render 0 0 440)
       [noteOfFrame Session.render 0 0 440]) _).
  exists (noteOfFrame Session.render 0 0 440).
  split; [left; reflexivity|]. split; reflexivity.
Defined.

(** ** The claims on concrete sessions *)

(** C1.  With the manager loaded and [isWaitingForMagenta] false in the
    render that started the session, the loop ends of [twoLoops] send a
    request at 3.4 s and, the buffer having changed again, a second one at
    5.8 s while the first is still in flight: the render's
    [isWaitingForMagenta] stays [false] although the React state has been
    [true] since the first request. *)
Theorem second_request_leaves_while_first_is_in_flight :
  let ran := App.run Session.brisk (map App.AnimationFrame Session.twoLoops)
               Session.started in
  map App.loopEnd (snd ran) = [true; false; true; false; true]
  /\ map (fun l => List.length (App.sent l)) (snd ran) = [0; 0; 1; 0; 1]%nat
  /\ List.length (App.inFlight (fst ran)) = 2%nat
  /\ Render.isWaitingForMagenta Session.brisk = false
  /\ React.isWaitingForMagenta (App.react (fst ran)) = true.
Proof.
  vm_compute. repeat split.
Qed.


(** Were a note active in the render, the render would keep it active
    after [handleNoteEnd], and the 100 ms block would close it again each
    time 100 ms of silence have passed: twice in [longSilence]. *)
Lemma active_render_closes_again :
  map App.closed
    (snd (App.run Session.holding (map App.AnimationFrame Session.longSilence)
            Session.started))
  = [0; 0; 1; 0; 1]%nat.
Proof.
  vm_compute. reflexivity.
Qed.







(** * Further properties of the code *)

(** ** [AudioBuffer] *)

Section AudioBufferFacts.

Import AudioBuffer.

Lemma store_length (i : nat) (v : Q) (xs : list Q) :
  List.length (store i v xs) = List.length xs.
Proof.
  revert i. induction xs as [|x xs IH]; intros i; [reflexivity|].
  destruct i; cbn; [reflexivity|]. rewrite IH. reflexivity.
Qed.

Lemma nth_store_same (i : nat) (v : Q) (xs : list Q) :
  (i < List.length xs)%nat -> nth i (store i v xs) 0%Q = v.
Proof.
  revert i. induction xs as [|x xs IH]; intros i Hi; cbn in Hi; [lia|].
  destruct i; cbn; [reflexivity|]. apply IH. lia.
Qed.

Lemma nth_store_other (i j : nat) (v : Q) (xs : list Q) :
  i <> j -> nth j (store i v xs) 0%Q = nth j xs 0%Q.
Proof.
  revert i j. induction xs as [|x xs IH]; intros i j Hij; [reflexivity|].
  destruct i, j; cbn; try reflexivity; [contradiction|].
  apply IH. lia.
Qed.

Lemma writeSample_wellFormed (this : t) (sample : Q) :
  wellFormed this -> wellFormed (writeSample this sample).
Proof.
  intros (H0 & Hlen & Hw & Hr). unfold wellFormed, writeSample. cbn.
  rewrite store_length. repeat split; try assumption.
  apply Nat.mod_upper_bound. lia.
Qed.

Lemma fold_writeSample_wellFormed (data : list Q) :
  forall this, wellFormed this -> wellFormed (fold_left writeSample data this).
Proof.
  induction data as [|x data IH]; intros this H; [exact H|].
  cbn. apply IH. apply writeSample_wellFormed. exact H.
Qed.

Lemma fold_writeSample_fields (data : list Q) :
  forall this,
    bufferSize (fold_left writeSample data this) = bufferSize this
    /\ readHead (fold_left writeSample data this) = readHead this
    /\ isRecording (fold_left writeSample data this) = isRecording this
    /\ ((writeHead this < bufferSize this)%nat ->
        writeHead (fold_left writeSample data this)
        = ((writeHead this + List.length data) mod bufferSize this)%nat).
Proof.
  induction data as [|x data IH]; intros this.
  - cbn. repeat split. intros Hw. rewrite Nat.add_0_r.
    symmetry. apply Nat.mod_small. exact Hw.
  - cbn [fold_left].
    destruct (IH (writeSample this x)) as (H1 & H2 & H3 & H4).
    cbn in H1, H2, H3. repeat split; try assumption.
    intros Hw. rewrite H4.
    + cbn [writeHead bufferSize writeSample List.length].
      rewrite Nat.Div0.add_mod_idemp_l. f_equal. lia.
    + cbn [writeHead bufferSize writeSample].
      apply Nat.mod_upper_bound. lia.
Qed.

(** The samples written from a head [g] leave alone every cell that is
    not one of the cells [g, g + 1, ...] taken modulo the size. *)
Lemma fold_writeSample_untouched (p : nat) (data : list Q) :
  forall this,
    (forall j, (j < List.length data)%nat ->
               ((writeHead this + j) mod bufferSize this)%nat <> p) ->
    (writeHead this < bufferSize this)%nat ->
    nth p (buffer (fold_left writeSample data this)) 0%Q
    = nth p (buffer this) 0%Q.
Proof.
  induction data as [|x data IH]; intros this Hfree Hw; [reflexivity|].
  cbn [fold_left]. rewrite IH.
  - cbn [buffer writeSample]. apply nth_store_other.
    specialize (Hfree 0%nat ltac:(cbn; lia)).
    rewrite Nat.add_0_r, Nat.mod_small in Hfree by exact Hw. exact Hfree.
  - intros j Hj. cbn [writeHead bufferSize writeSample].
    rewrite Nat.Div0.add_mod_idemp_l.
    replace (writeHead this + 1 + j)%nat with (writeHead this + S j)%nat by lia.
    apply Hfree. cbn. lia.
  - cbn [writeHead bufferSize writeSample].
    apply Nat.mod_upper_bound. lia.
Qed.

Lemma read_fields (n : nat) :
  forall this,
    buffer (snd (read n this)) = buffer this
    /\ bufferSize (snd (read n this)) = bufferSize this
    /\ writeHead (snd (read n this)) = writeHead this
    /\ isRecording (snd (read n this)) = isRecording this
    /\ List.length (fst (read n this)) = n
    /\ ((readHead this < bufferSize this)%nat ->
        readHead (snd (read n this))
        = ((readHead this + n) mod bufferSize this)%nat).
Proof.
  induction n as [|n IH]; intros this.
  - cbn. repeat split. intros Hr. rewrite Nat.add_0_r.
    symmetry. apply Nat.mod_small. exact Hr.
  - cbn [read].
    match goal with
    | |- context [read n ?s] => destruct (IH s) as (H1 & H2 & H3 & H4 & H5 & H6);
                                destruct (read n s) as [result final]
    end.
    cbn in *. repeat split; try assumption; [lia|].
    intros Hr. rewrite H6.
    + rewrite Nat.Div0.add_mod_idemp_l. f_equal. lia.
    + apply Nat.mod_upper_bound. lia.
Qed.

Lemma read_cellsFrom (n : nat) :
  forall this,
    fst (read n this)
    = cellsFrom (bufferSize this) (buffer this) (readHead this) n.
Proof.
  induction n as [|n IH]; intros this; [reflexivity|].
  cbn [read cellsFrom].
  match goal with
  | |- context [read n ?s] => specialize (IH s); destruct (read n s) as [result final]
  end.
  cbn in *. rewrite IH. reflexivity.
Qed.

Lemma cellsFrom_after_writes (data : list Q) :
  forall this,
    wellFormed this ->
    (List.length data <= bufferSize this)%nat ->
    cellsFrom (bufferSize this) (buffer (fold_left writeSample data this))
      (writeHead this) (List.length data)
    = data.
Proof.
  induction data as [|x data IH]; intros this Hwf Hlen; [reflexivity|].
  assert (Hwf' := writeSample_wellFormed this x Hwf).
  destruct Hwf as (H0 & Hbuf & Hw & Hr).
  cbn [List.length] in Hlen.
  cbn [fold_left List.length cellsFrom].
  f_equal.
  - rewrite fold_writeSample_untouched.
    + cbn [buffer writeSample]. apply nth_store_same. lia.
    + intros j Hj. cbn [writeHead bufferSize writeSample].
      rewrite Nat.Div0.add_mod_idemp_l.
      intros E.
      assert (Hd := Nat.div_mod_eq (writeHead this + 1 + j) (bufferSize this)).
      rewrite E in Hd.
      assert (Hup : ((writeHead this + 1 + j) / bufferSize this < 2)%nat).
      { apply Nat.Div0.div_lt_upper_bound. lia. }
      assert (Hq : ((writeHead this + 1 + j) / bufferSize this = 0
                    \/ (writeHead this + 1 + j) / bufferSize this = 1)%nat) by lia.
      destruct Hq as [Hq|Hq]; rewrite Hq in Hd; lia.
    + cbn [writeHead bufferSize writeSample]. apply Nat.mod_upper_bound. lia.
  - specialize (IH (writeSample this x) Hwf').
    cbn [bufferSize writeHead writeSample] in IH. apply IH. lia.
Qed.

(** X1. From [start()], or from any state whose two heads agree, what
    [write] stores while recording comes back from [read] unchanged as
    long as it fits the buffer; the two heads agree again afterwards. *)
Theorem write_then_read_returns_the_data (data : list Q) (this : t) :
  wellFormed this ->
  isRecording this = true ->
  readHead this = writeHead this ->
  (List.length data <= bufferSize this)%nat ->
  fst (read (List.length data) (write data this)) = data
  /\ readHead (snd (read (List.length data) (write data this)))
     = writeHead (snd (read (List.length data) (write data this)))
  /\ wellFormed (snd (read (List.length data) (write data this))).
Proof.
  intros Hwf Hrec Hheads Hlen.
  unfold write. rewrite Hrec. cbn [negb].
  assert (Hwf' := fold_writeSample_wellFormed data this Hwf).
  destruct (fold_writeSample_fields data this) as (F1 & F2 & F3 & F4).
  destruct (read_fields (List.length data) (fold_left writeSample data this))
    as (R1 & R2 & R3 & R4 & R5 & R6).
  destruct Hwf as (H0 & Hbuf & Hw & Hr).
  destruct Hwf' as (W0 & W1 & W2 & W3).
  specialize (F4 Hw). specialize (R6 W3).
  split; [|split].
  - rewrite read_cellsFrom, F1, F2, Hheads.
    apply cellsFrom_after_writes; [repeat split; assumption | exact Hlen].
  - rewrite R3, R6, F1, F2, F4, Hheads. reflexivity.
  - unfold wellFormed. rewrite R1, R2, R3, R6.
    repeat split; try assumption.
    apply Nat.mod_upper_bound. lia.
Qed.

(** X2. [write] does nothing at all while the buffer is not recording;
    while it records, it moves the write head by the number of samples,
    modulo the size, and keeps the buffer's size, the read head and both
    heads inside the buffer. *)
Theorem write_moves_the_write_head_round (data : list Q) (this : t) :
  wellFormed this ->
  (isRecording this = false -> write data this = this)
  /\ (isRecording this = true ->
      writeHead (write data this)
      = ((writeHead this + List.length data) mod bufferSize this)%nat
      /\ readHead (write data this) = readHead this
      /\ bufferSize (write data this) = bufferSize this
      /\ wellFormed (write data this)).
Proof.
  intros Hwf. unfold write. split; intros Hrec; rewrite Hrec; cbn [negb].
  - reflexivity.
  - destruct (fold_writeSample_fields data this) as (F1 & F2 & _ & F4).
    split; [|split; [exact F2|split; [exact F1|]]].
    + apply F4. destruct Hwf as (_ & _ & Hw & _). exact Hw.
    + apply fold_writeSample_wellFormed. exact Hwf.
Qed.

Lemma cellsFrom_zeros (size : nat) (cells : list Q) (n : nat) :
  Forall (fun c => c = 0%Q) cells ->
  forall head, cellsFrom size cells head n = repeat 0%Q n.
Proof.
  intros Hz. induction n as [|n IH]; intros head; [reflexivity|].
  cbn [cellsFrom repeat]. rewrite IH. f_equal.
  destruct (Nat.lt_ge_cases head (List.length cells)) as [Hin|Hout].
  - rewrite Forall_forall in Hz. apply Hz. apply nth_In. exact Hin.
  - apply nth_overflow. exact Hout.
Qed.

(** X3. After [clear()], and in a buffer fresh from the constructor,
    [read(n)] returns [n] zeros for every [n], however much larger than
    the buffer [n] is: [read] never runs out and never fails. *)
Theorem read_after_clear_is_silence (n : nat) (this : t) (rate : Q) :
  fst (read n (clear this)) = repeat 0%Q n
  /\ fst (read n (constructor rate)) = repeat 0%Q n
  /\ List.length (fst (read n this)) = n.
Proof.
  split; [|split].
  - rewrite read_cellsFrom. apply cellsFrom_zeros.
    cbn [buffer clear]. apply Forall_forall.
    intros c Hc. apply in_map_iff in Hc. destruct Hc as (_ & E & _).
    symmetry. exact E.
  - rewrite read_cellsFrom. apply cellsFrom_zeros.
    cbn [buffer constructor]. apply Forall_forall.
    intros c Hc. apply repeat_spec in Hc. exact Hc.
  - destruct (read_fields n this) as (_ & _ & _ & _ & H & _). exact H.
Qed.

Lemma fold_writeSample_app (old recent : list Q) (this : t) :
  fold_left writeSample (old ++ recent) this
  = fold_left writeSample recent (fold_left writeSample old this).
Proof. apply fold_left_app. Qed.

(** X4. When more is written than the buffer holds, the oldest samples
    are overwritten: the buffer ends up holding exactly the last
    [bufferSize] samples, in order, from the write head on. *)
Theorem write_keeps_the_latest_samples (old recent : list Q) (this : t) :
  wellFormed this ->
  isRecording this = true ->
  List.length recent = bufferSize this ->
  let written := write (old ++ recent) this in
  cellsFrom (bufferSize written) (buffer written) (writeHead written)
    (bufferSize written)
  = recent.
Proof.
  intros Hwf Hrec Hlen written.
  unfold written, write. rewrite Hrec. cbn [negb].
  rewrite fold_writeSample_app.
  set (mid := fold_left writeSample old this).
  assert (Hmid : wellFormed mid) by (apply fold_writeSample_wellFormed; exact Hwf).
  destruct (fold_writeSample_fields old this) as (M1 & _).
  fold mid in M1.
  destruct (fold_writeSample_fields recent mid) as (F1 & _ & _ & F4).
  destruct Hmid as (H0 & Hbuf & Hw & Hr).
  rewrite F1, (F4 Hw), Hlen, <- M1.
  rewrite <- Nat.Div0.add_mod_idemp_r, Nat.Div0.mod_same, Nat.add_0_r.
  rewrite (Nat.mod_small _ _ Hw).
  rewrite <- (cellsFrom_after_writes recent mid) at 2;
    [|repeat split; assumption | lia].
  rewrite Hlen, M1. reflexivity.
Qed.

End AudioBufferFacts.

(** A buffer of 6 samples ([sampleRate] 1/8), started. *)
Lemma write_then_read_returns_the_data_witness :
  fst (AudioBuffer.read 3
         (AudioBuffer.write [1; 2; 3]%Q
            (AudioBuffer.start (AudioBuffer.constructor (1 # 8)))))
  = [1; 2; 3]%Q.
Proof.
  refine (proj1
    (write_then_read_returns_the_data [1; 2; 3]%Q
       (AudioBuffer.start (AudioBuffer.constructor (1 # 8))) _ _ _ _)).
  - vm_compute. repeat split; lia.
  - reflexivity.
  - reflexivity.
  - vm_compute. lia.
Defined.

Lemma write_moves_the_write_head_round_witness :
  AudioBuffer.write [1; 2; 3]%Q (AudioBuffer.constructor (1 # 8))
  = AudioBuffer.constructor (1 # 8).
Proof.
  refine (proj1
    (write_moves_the_write_head_round [1; 2; 3]%Q
       (AudioBuffer.constructor (1 # 8)) _) _).
  - vm_compute. repeat split; lia.
  - reflexivity.
Defined.

Lemma write_keeps_the_latest_samples_witness :
  AudioBuffer.cellsFrom 6
    (AudioBuffer.buffer
       (AudioBuffer.write ([9; 8] ++ [1; 2; 3; 4; 5; 6])%Q
          (AudioBuffer.start (AudioBuffer.constructor (1 # 8)))))
    2 6
  = [1; 2; 3; 4; 5; 6]%Q.
Proof.
  refine (write_keeps_the_latest_samples [9; 8]%Q [1; 2; 3; 4; 5; 6]%Q
            (AudioBuffer.start (AudioBuffer.constructor (1 # 8))) _ _ _).
  - vm_compute. repeat split; lia.
  - reflexivity.
  - reflexivity.
Defined.

(** ** [MIDIManager] *)

Section MIDIManagerFacts.

Import MIDIManager.

Lemma mapSet_keys (key : string) (value : Output) (entries : list (string * Output)) :
  map fst (mapSet key value entries)
  = if in_dec string_dec key (map fst entries)
    then map fst entries
    else map fst entries ++ [key].
Proof.
  induction entries as [|[k v] entries IH]; [reflexivity|].
  cbn [mapSet map fst].
  destruct (String.eqb k key) eqn:E.
  - apply String.eqb_eq in E. subst k. cbn [map fst].
    destruct (in_dec string_dec key (key :: map fst entries)) as [_|H];
      [reflexivity|].
    exfalso. apply H. left. reflexivity.
  - apply String.eqb_neq in E. cbn [map fst]. rewrite IH.
    destruct (in_dec string_dec key (map fst entries)) as [H|H];
      destruct (in_dec string_dec key (k :: map fst entries)) as [H'|H'];
      try reflexivity.
    + exfalso. apply H'. right. exact H.
    + exfalso. destruct H' as [H'|H']; [exact (E H') | exact (H H')].
Qed.

Lemma mapGet_keys (key : string) (entries : list (string * Output)) :
  (exists v, mapGet key entries = Some v) <-> In key (map fst entries).
Proof.
  induction entries as [|[k v] entries IH]; cbn [mapGet map fst].
  - split; [intros [v H]; discriminate | intros []].
  - destruct (String.eqb k key) eqn:E.
    + apply String.eqb_eq in E. split; [intros _; left; exact E|].
      intros _. exists v. reflexivity.
    + apply String.eqb_neq in E. rewrite IH. cbn. tauto.
Qed.

Lemma connect_keys (ports : list Output) :
  forall entries,
    NoDup (map fst entries) ->
    let entries' :=
      fold_left (fun es output => mapSet (id output) output es) ports entries in
    NoDup (map fst entries')
    /\ (forall k, In k (map fst entries')
                  <-> In k (map fst entries) \/ In k (map id ports)).
Proof.
  induction ports as [|p ports IH]; intros entries Hnd; cbn [fold_left map].
  - split; [exact Hnd|]. intros k. cbn. tauto.
  - assert (Hset : NoDup (map fst (mapSet (id p) p entries))
                   /\ forall k, In k (map fst (mapSet (id p) p entries))
                                <-> In k (map fst entries) \/ k = id p).
    { rewrite mapSet_keys.
      destruct (in_dec string_dec (id p) (map fst entries)) as [H|H].
      - split; [exact Hnd|]. intros k. split; [tauto|].
        intros [Hk| ->]; assumption.
      - split.
        + apply NoDup_app; [exact Hnd | constructor; [intros []|constructor] |].
          intros k Hk [<-|[]]. exact (H Hk).
        + intros k. rewrite in_app_iff. cbn. intuition. }
    destruct Hset as (Hnd' & Hin').
    destruct (IH _ Hnd') as (IH1 & IH2). cbn zeta in IH1, IH2.
    split; [exact IH1|].
    intros k. rewrite IH2, Hin'. cbn. intuition.
Qed.

(** X5. A manager that is not connected, be it fresh from the
    constructor, after a [connect()] that failed or after [disconnect()],
    sends nothing to any port, whatever it is asked to send. *)
Theorem unconnected_manager_sends_nothing
    (this : t) (note velocity channel : Z) (message : list Z)
    (outputId : option string) :
  (isConnected this = false ->
   sendNoteOn this note velocity channel outputId = []
   /\ sendNoteOff this note channel outputId = []
   /\ sendMessage this message outputId = [])
  /\ isConnected constructor = false
  /\ isConnected (fst (connect None this)) = false
  /\ snd (connect None this) = false
  /\ isConnected (disconnect this) = false
  /\ sendNoteOn (disconnect this) note velocity channel outputId = [].
Proof.
  split; [|repeat split].
  intros H. unfold sendNoteOn, sendNoteOff, sendMessage. rewrite H.
  repeat split.
Qed.

(** X6. After a successful [connect()] on a fresh manager every port id
    is stored once.  A note-on without an output id (or with the empty
    id) goes to every port, once each, in the order the ports were first
    met; a note-on for a known id goes to that port alone and one for an
    unknown id goes nowhere.  On channels 0 to 15 the status byte has the
    note-on nibble [0x9] on top and the channel below. *)
Theorem connected_manager_routes_note_on
    (ports : list Output) (note velocity channel : Z) (outputId : string) :
  let this := fst (connect (Some ports) constructor) in
  let keys := map fst (outputs this) in
  let message := [144 + channel; note; velocity] in
  NoDup keys
  /\ (forall k, In k keys <-> In k (map id ports))
  /\ sendNoteOn this note velocity channel None
     = map (fun k => (k, message)) keys
  /\ sendNoteOn this note velocity channel (Some ""%string)
     = map (fun k => (k, message)) keys
  /\ (outputId <> ""%string ->
      sendNoteOn this note velocity channel (Some outputId)
      = if in_dec string_dec outputId (map id ports)
        then [(outputId, message)] else [])
  /\ (0 <= channel < 16 ->
      Z.land (144 + channel) 240 = 144 /\ Z.land (144 + channel) 15 = channel).
Proof.
  intros this keys message.
  destruct (connect_keys ports [] (NoDup_nil _)) as (Hnd & Hin).
  cbn zeta in Hnd, Hin.
  assert (Hkeys : forall k, In k keys <-> In k (map id ports)).
  { intros k. unfold keys, this. cbn [connect fst outputs constructor].
    rewrite Hin. cbn. tauto. }
  split; [exact Hnd|]. split; [exact Hkeys|].
  assert (Hall : forall o, truthyId o = None ->
                   sendNoteOn this note velocity channel o
                   = map (fun k => (k, message)) keys).
  { intros o Ho. unfold sendNoteOn, sendMessage. cbn [isConnected this negb].
    unfold this at 1 2. cbn [connect fst isConnected negb].
    rewrite Ho. unfold keys. rewrite map_map. reflexivity. }
  split; [apply Hall; reflexivity|]. split; [apply Hall; reflexivity|].
  split.
  - intros Hne. unfold sendNoteOn, sendMessage.
    unfold this at 1 2. cbn [connect fst isConnected negb].
    unfold truthyId.
    destruct (String.eqb outputId "") eqn:E;
      [apply String.eqb_eq in E; contradiction|].
    destruct (in_dec string_dec outputId (map id ports)) as [H|H].
    + apply Hkeys in H. apply mapGet_keys in H. destruct H as [v Hv].
      fold this. rewrite Hv. reflexivity.
    + destruct (mapGet outputId (outputs this)) as [v|] eqn:Hv; [|reflexivity].
      exfalso. apply H. apply Hkeys. apply mapGet_keys. exists v. exact Hv.
  - intros Hch.
    assert (Hcases : channel = 0 \/ channel = 1 \/ channel = 2 \/ channel = 3
                     \/ channel = 4 \/ channel = 5 \/ channel = 6 \/ channel = 7
                     \/ channel = 8 \/ channel = 9 \/ channel = 10 \/ channel = 11
                     \/ channel = 12 \/ channel = 13 \/ channel = 14 \/ channel = 15)
      by lia.
    repeat (destruct Hcases as [-> | Hcases]; [split; reflexivity|]).
    subst channel. split; reflexivity.
Qed.

End MIDIManagerFacts.

(** Two ports, one asked for by its id on channel 3. *)
Lemma connected_manager_routes_note_on_witness :
  MIDIManager.sendNoteOn
    (fst (MIDIManager.connect
            (Some [ {| MIDIManager.id := "a"; MIDIManager.name := "Synth" |};
                    {| MIDIManager.id := "b"; MIDIManager.name := "" |} ]%string)
            MIDIManager.constructor))
    60 100 3 (Some "b"%string)
  = [("b"%string, [147; 60; 100])].
Proof.
  refine (proj1 (proj2 (proj2 (proj2 (proj2
    (connected_manager_routes_note_on
       [ {| MIDIManager.id := "a"; MIDIManager.name := "Synth" |};
         {| MIDIManager.id := "b"; MIDIManager.name := "" |} ]%string
       60 100 3 "b"%string))))) _).
  discriminate.
Defined.

Lemma unconnected_manager_sends_nothing_witness :
  MIDIManager.sendNoteOn MIDIManager.constructor 60 100 0 None = [].
Proof.
  refine (proj1 (proj1
    (unconnected_manager_sends_nothing MIDIManager.constructor 60 100 0 [] None) _)).
  reflexivity.
Defined.

(** ** Note names *)

Section DisplayFacts.

Import Display.



End DisplayFacts.


(** ** Quantized notes, the metronome and the grid *)

Section GridFacts.

Variable r : Render.t.

Lemma eighth_of_a_beat_pos :
  0 < Render.bpm r -> (0 < (60 / inject_Z (Render.bpm r)) / inject_Z App.SUBDIVISIONS)%Q.
Proof.
  intros Hb.
  apply Qlt_shift_div_l; [reflexivity|].
  apply Qlt_shift_div_l; [apply JSFacts.inject_Z_pos; exact Hb|].
  rewrite !Qmult_0_l. reflexivity.
Qed.

(** X8. [quantizeNote] always gives a note of the 32nd-note loop: the
    pitch lies in 0..127, the start position lies inside the loop of
    [numberOfBars * 4 * 8] cells, the end position is the next cell, back
    at 0 after the last one, and the note lasts an eighth of a beat. *)
Theorem quantizeNote_stays_in_the_loop (pitch time : Q) :
  0 < Render.bpm r ->
  0 < Render.numberOfBars r ->
  (0 <= time)%Q ->
  let note := Quantize.quantizeNote r pitch time in
  let cells := Render.numberOfBars r * 4 * 8 in
  0 <= Note.pitch note <= 127
  /\ 0 <= Note.startPosition note < cells
  /\ Note.endPosition note = (Note.startPosition note + 1) mod cells
  /\ (Note.startPosition note < cells - 1 ->
      Note.endPosition note = Note.startPosition note + 1)
  /\ (Note.startPosition note = cells - 1 -> Note.endPosition note = 0)
  /\ (Note.endTime note - Note.startTime note
      == (60 / inject_Z (Render.bpm r)) / 8)%Q.
Proof.
  intros Hb Hn Ht note cells.
  assert (Hc : 0 < cells) by (unfold cells; lia).
  set (position :=
         JS.Math_round (time / ((60 / inject_Z (Render.bpm r)) / inject_Z App.SUBDIVISIONS))).
  assert (Hp : 0 <= position).
  { apply JSFacts.Math_round_nonneg.
    apply Qle_shift_div_l; [apply eighth_of_a_beat_pos; exact Hb|].
    rewrite Qmult_0_l. exact Ht. }
  assert (Hs : Note.startPosition note = position mod cells).
  { unfold note, Quantize.quantizeNote, JS.rem. cbn [Note.startPosition].
    fold position. apply Z.rem_mod_nonneg; [exact Hp | exact Hc]. }
  assert (He : Note.endPosition note = (position + 1) mod cells).
  { unfold note, Quantize.quantizeNote, JS.rem. cbn [Note.endPosition].
    fold position. apply Z.rem_mod_nonneg; [lia | exact Hc]. }
  assert (Hbound := Z.mod_pos_bound position cells Hc).
  assert (Hnext : Note.endPosition note = (Note.startPosition note + 1) mod cells).
  { rewrite He, Hs. rewrite Z.add_mod_idemp_l by lia. reflexivity. }
  split; [unfold note, Quantize.quantizeNote; cbn [Note.pitch]; lia|].
  split; [rewrite Hs; exact Hbound|].
  split; [exact Hnext|].
  split; [|split].
  - intros Hlt. rewrite Hnext. apply Z.mod_small. lia.
  - intros Hlast. rewrite Hnext, Hlast.
    replace (cells - 1 + 1) with cells by lia. apply Z.mod_same. lia.
  - unfold note, Quantize.quantizeNote. cbn [Note.endTime Note.startTime].
    change (inject_Z App.SUBDIVISIONS) with 8%Q. ring.
Qed.

Lemma playhead_from (beats : nat) :
  0 < Render.numberOfBars r ->
  forall position,
    0 <= position ->
    Metronome.playhead r (S beats) position
    = (position + Z.of_nat (S beats)) mod (Render.numberOfBars r * 4).
Proof.
  intros Hn.
  induction beats as [|beats IH]; intros position Hp.
  - cbn [Metronome.playhead]. unfold Metronome.tick, JS.rem.
    change App.BEATS_PER_BAR with 4.
    rewrite Z.rem_mod_nonneg by lia. reflexivity.
  - change (Metronome.playhead r (S (S beats)) position)
      with (Metronome.playhead r (S beats) (Metronome.tick r position)).
    assert (Htick : Metronome.tick r position
                    = (position + 1) mod (Render.numberOfBars r * 4)).
    { unfold Metronome.tick, JS.rem. change App.BEATS_PER_BAR with 4.
      apply Z.rem_mod_nonneg; lia. }
    rewrite IH.
    + rewrite Htick, Z.add_mod_idemp_l by lia. f_equal. lia.
    + rewrite Htick. apply Z.mod_pos_bound. lia.
Qed.

(** X9. The metronome's playhead counts the beats round the bars: after
    [k] beats it shows [k mod (numberOfBars * 4)], which [MusicGrid]
    always accepts and draws; and the position that
    [handleBarCountChange] sets is accepted by the grid of the new bar
    count. *)
Theorem playhead_counts_beats_round_the_bars (beats : nat) :
  0 < Render.numberOfBars r ->
  Metronome.playhead r beats 0 = Z.of_nat beats mod (Render.numberOfBars r * 4)
  /\ MusicGrid.playheadDrawn (Render.numberOfBars r) (Metronome.playhead r beats 0)
     = true
  /\ (forall playheadPosition newBarCount : Z,
        0 <= playheadPosition ->
        0 < newBarCount ->
        MusicGrid.playheadDrawn newBarCount
          (Metronome.handleBarCountChange playheadPosition newBarCount)
        = true).
Proof.
  intros Hn.
  assert (E : Metronome.playhead r beats 0
              = Z.of_nat beats mod (Render.numberOfBars r * 4)).
  { destruct beats as [|beats].
    - cbn [Metronome.playhead]. rewrite Z.mod_0_l by lia. reflexivity.
    - rewrite playhead_from by lia. reflexivity. }
  split; [exact E|]. split.
  - rewrite E. unfold MusicGrid.playheadDrawn.
    assert (Hb := Z.mod_pos_bound (Z.of_nat beats) (Render.numberOfBars r * 4)
                    ltac:(lia)).
    apply andb_true_iff. split; [apply Z.leb_le | apply Z.ltb_lt]; lia.
  - intros p n Hp Hpos.
    unfold MusicGrid.playheadDrawn, Metronome.handleBarCountChange, JS.rem.
    rewrite Z.rem_mod_nonneg by lia.
    assert (Hb := Z.mod_pos_bound p n Hpos).
    apply andb_true_iff. split; [apply Z.leb_le | apply Z.ltb_lt]; lia.
Qed.

End GridFacts.

Lemma quantizeNote_stays_in_the_loop_witness :
  Note.endPosition (Quantize.quantizeNote Session.render 440 (795 # 100)) = 0.
Proof.
  refine (proj1 (proj2 (proj2 (proj2 (proj2
    (quantizeNote_stays_in_the_loop Session.render 440 (795 # 100) _ _ _)))))
    _).
  - reflexivity.
  - reflexivity.
  - discriminate.
  - vm_compute. reflexivity.
Defined.

Lemma playhead_counts_beats_round_the_bars_witness :
  Metronome.playhead Session.render 17 0 = 1.
Proof.
  exact (proj1 (playhead_counts_beats_round_the_bars Session.render 17 eq_refl)).
Defined.

(** ** What the grid draws and what the export writes *)

Section DrawAndExport.

Variable r : Render.t.

Hypothesis bpm_pos : 0 < Render.bpm r.
Hypothesis gridDivision_pos : 0 < Render.gridDivision r.
Hypothesis numberOfBars_pos : 0 < Render.numberOfBars r.

Lemma inject_Z_nonzero (z : Z) : 0 < z -> ~ (inject_Z z == 0)%Q.
Proof.
  intros Hz E. apply JSFacts.inject_Z_pos in Hz.
  rewrite E in Hz. exact (Qlt_irrefl 0 Hz).
Qed.








End DrawAndExport.

Section MusicGridFacts.

Variable numberOfBars gridDivision : Z.
Variable validNoteRange : MagentaManager.ValidNoteRange.

Lemma note_height (pitch : Z) :
  (MusicGrid.height - (inject_Z (pitch - 60) * 5 + MusicGrid.height / 2)
   == inject_Z (400 - 5 * pitch))%Q.
Proof.
  unfold MusicGrid.height.
  replace (400 - 5 * pitch) with (200 - ((pitch - 60) * 5 + 100)) by lia.
  unfold Z.sub.
  rewrite (inject_Z_plus 200), inject_Z_opp, (inject_Z_plus _ 100), inject_Z_mult.
  change (inject_Z 200) with 200%Q. change (inject_Z 100) with 100%Q.
  change (inject_Z 5) with 5%Q.
  field.
Qed.

(** X13. On its canvas of 200 pixels [MusicGrid] draws a note exactly
    when its pitch lies between 40 and 80, at the height [400 - 5 * pitch];
    a note of pitch 81, 82 or 83 is never drawn although it lies in the
    valid range of Magenta.  A drawn note that lies inside the grid is
    drawn inside the width of the canvas. *)
Theorem grid_draws_pitches_40_to_80 (note : Note.t) :
  (MusicGrid.drawNote numberOfBars gridDivision validNoteRange note <> None
   <-> 40 <= Note.pitch note <= 80)
  /\ (81 <= Note.pitch note <= 83 ->
      MusicGrid.drawNote numberOfBars gridDivision
        (MagentaManager.validNoteRange MagentaManager.constructor) note = None
      /\ MagentaManager.isValid MagentaManager.constructor (App.toMagentaNote note)
         = true)
  /\ (forall rect,
        MusicGrid.drawNote numberOfBars gridDivision validNoteRange note = Some rect ->
        (MusicGrid.y rect == inject_Z (400 - 5 * Note.pitch note))%Q
        /\ (0 < numberOfBars ->
            0 < gridDivision ->
            0 <= Note.startPosition note <= Note.endPosition note ->
            Note.endPosition note <= numberOfBars * 4 * gridDivision ->
            (0 <= MusicGrid.x rect)%Q
            /\ (0 <= MusicGrid.w rect)%Q
            /\ (MusicGrid.x rect + MusicGrid.w rect <= MusicGrid.width)%Q)).
Proof.
  assert (Hdrawn : forall range,
             MusicGrid.drawNote numberOfBars gridDivision range note <> None
             <-> 40 <= Note.pitch note <= 80).
  { intros range. unfold MusicGrid.drawNote.
    set (yPos := (MusicGrid.height
                  - (inject_Z (Note.pitch note - 60) * 5 + MusicGrid.height / 2))%Q).
    assert (Ey : (yPos == inject_Z (400 - 5 * Note.pitch note))%Q)
      by apply note_height.
    assert (H0 : Qle_bool 0 yPos = true <-> Note.pitch note <= 80).
    { rewrite Qle_bool_iff, Ey. change 0%Q with (inject_Z 0).
      rewrite <- Zle_Qle. lia. }
    assert (H1 : Qle_bool yPos MusicGrid.height = true <-> 40 <= Note.pitch note).
    { rewrite Qle_bool_iff, Ey. change MusicGrid.height with (inject_Z 200).
      rewrite <- Zle_Qle. lia. }
    assert (Hb : Qle_bool 0 yPos && Qle_bool yPos MusicGrid.height = true
                 <-> 40 <= Note.pitch note <= 80)
      by (rewrite andb_true_iff, H0, H1; lia).
    destruct (Qle_bool 0 yPos && Qle_bool yPos MusicGrid.height); split; intros H.
    - apply Hb. reflexivity.
    - discriminate.
    - exfalso. apply H. reflexivity.
    - destruct Hb as [_ Hb]. specialize (Hb H). discriminate. }
  split; [apply Hdrawn|]. split.
  - intros Hp. split.
    + destruct (MusicGrid.drawNote numberOfBars gridDivision
                  (MagentaManager.validNoteRange MagentaManager.constructor) note)
        eqn:E; [|reflexivity].
      exfalso.
      assert (Hd : MusicGrid.drawNote numberOfBars gridDivision
                     (MagentaManager.validNoteRange MagentaManager.constructor) note
                   <> None) by (rewrite E; discriminate).
      apply Hdrawn in Hd. lia.
    + unfold MagentaManager.isValid, App.toMagentaNote. cbn.
      apply andb_true_iff. split; apply Z.leb_le; lia.
  - intros rect Hrect. unfold MusicGrid.drawNote in Hrect.
    destruct (Qle_bool 0 _ && Qle_bool _ MusicGrid.height); [|discriminate].
    injection Hrect as <-. cbn [MusicGrid.x MusicGrid.y MusicGrid.w].
    split; [apply note_height|].
    intros Hbars Hgrid Hpos Hend.
    set (total := numberOfBars * 4 * gridDivision) in *.
    assert (Ht : 0 < total) by (unfold total; nia).
    assert (Hw : (0 < MusicGrid.width / inject_Z total)%Q).
    { apply Qlt_shift_div_l; [apply JSFacts.inject_Z_pos; exact Ht|].
      rewrite Qmult_0_l. reflexivity. }
    assert (Hmono : forall u v : Z,
               u <= v ->
               (inject_Z u * (MusicGrid.width / inject_Z total)
                <= inject_Z v * (MusicGrid.width / inject_Z total))%Q).
    { intros u v Huv. apply Qmult_le_compat_r; [|apply Qlt_le_weak; exact Hw].
      rewrite <- Zle_Qle. exact Huv. }
    split; [|split].
    + assert (H := Hmono 0 (Note.startPosition note) ltac:(lia)).
      rewrite Qmult_0_l in H. exact H.
    + assert (H := Hmono (Note.startPosition note) (Note.endPosition note) ltac:(lia)).
      apply (Qplus_le_l _ _ (inject_Z (Note.startPosition note)
                             * (MusicGrid.width / inject_Z total))).
      rewrite Qplus_0_l.
      assert (E : (inject_Z (Note.endPosition note) * (MusicGrid.width / inject_Z total)
                   - inject_Z (Note.startPosition note) * (MusicGrid.width / inject_Z total)
                   + inject_Z (Note.startPosition note) * (MusicGrid.width / inject_Z total)
                   == inject_Z (Note.endPosition note) * (MusicGrid.width / inject_Z total))%Q)
        by ring.
      rewrite E. exact H.
    + assert (H := Hmono (Note.endPosition note) total Hend).
      assert (E : (inject_Z (Note.startPosition note) * (MusicGrid.width / inject_Z total)
                   + (inject_Z (Note.endPosition note) * (MusicGrid.width / inject_Z total)
                      - inject_Z (Note.startPosition note) * (MusicGrid.width / inject_Z total))
                   == inject_Z (Note.endPosition note) * (MusicGrid.width / inject_Z total))%Q)
        by ring.
      rewrite E.
      apply Qle_trans with (inject_Z total * (MusicGrid.width / inject_Z total))%Q;
        [exact H|].
      assert (E2 : (inject_Z total * (MusicGrid.width / inject_Z total)
                    == MusicGrid.width)%Q).
      { field. intros E0. apply JSFacts.inject_Z_pos in Ht.
        rewrite E0 in Ht. exact (Qlt_irrefl 0 Ht). }
      rewrite E2. apply Qle_refl.
Qed.

End MusicGridFacts.




Lemma grid_draws_pitches_40_to_80_witness :
  MusicGrid.drawNote 4 8
    (MagentaManager.validNoteRange MagentaManager.constructor)
    {| Note.pitch := 82; Note.startPosition := 0; Note.endPosition := 8;
       Note.startTime := 0%Q; Note.endTime := 1%Q;
       Note.velocity := Some 100 |} = None
  /\ MagentaManager.isValid MagentaManager.constructor
       (App.toMagentaNote
          {| Note.pitch := 82; Note.startPosition := 0; Note.endPosition := 8;
             Note.startTime := 0%Q; Note.endTime := 1%Q;
             Note.velocity := Some 100 |}) = true.
Proof.
  refine (proj1 (proj2
    (grid_draws_pitches_40_to_80 4 8
       (MagentaManager.validNoteRange MagentaManager.constructor)
       {| Note.pitch := 82; Note.startPosition := 0; Note.endPosition := 8;
          Note.startTime := 0%Q; Note.endTime := 1%Q;
          Note.velocity := Some 100 |})) _).
  cbn. lia.
Defined.

(** ** More on combining notes *)

Section CombineFacts.

Import Properties.

Lemma combineFrom_fixed (rest : list Note.t) :
  forall current,
    noAdjacentPitch (current :: rest) -> combineFrom current rest = current :: rest.
Proof.
  induction rest as [|note rest IH]; intros current H.
  - reflexivity.
  - cbn [combineFrom]. destruct H as [Hne Hrest].
    destruct (Note.pitch note =? Note.pitch current) eqn:E.
    + apply Z.eqb_eq in E. congruence.
    + rewrite (IH note Hrest). reflexivity.
Qed.

(** X14. Combining is idempotent: the combined notes are combined
    already. *)
Theorem combineNotes_is_idempotent (notes : list Note.t) :
  App.combineNotes (App.combineNotes notes) = App.combineNotes notes.
Proof.
  destruct notes as [|note rest]; [reflexivity|].
  rewrite combineNotes_cons.
  assert (H := combineFrom_noAdjacentPitch rest note).
  destruct (combineFrom note rest) as [|first tail] eqn:E; [reflexivity|].
  rewrite combineNotes_cons. apply combineFrom_fixed. exact H.
Qed.

Lemma last_extend (rest : list Note.t) (current : Note.t) (endTime : Q)
    (endPosition : Z) :
  rest <> [] ->
  last rest (Note.extend current endTime endPosition) = last rest current.
Proof.
  induction rest as [|note rest IH]; intros Hne; [contradiction|].
  destruct rest as [|next rest]; [reflexivity|].
  cbn [last] in *. apply IH. discriminate.
Qed.

Lemma combineFrom_span (rest : list Note.t) :
  forall current,
    Note.startPosition (hd current (combineFrom current rest))
    = Note.startPosition current
    /\ Note.startTime (hd current (combineFrom current rest))
       = Note.startTime current
    /\ Note.endPosition (last (combineFrom current rest) current)
       = Note.endPosition (last rest current)
    /\ Note.endTime (last (combineFrom current rest) current)
       = Note.endTime (last rest current).
Proof.
  induction rest as [|note rest IH]; intros current.
  - cbn. repeat split.
  - cbn [combineFrom].
    destruct (Note.pitch note =? Note.pitch current).
    + set (merged := Note.extend current (Note.endTime note) (Note.endPosition note)).
      destruct (IH merged) as (H1 & H2 & H3 & H4).
      assert (Hhd : hd current (combineFrom merged rest)
                    = hd merged (combineFrom merged rest)).
      { destruct (combineFrom_head rest merged) as (first & tail & E & _).
        rewrite E. reflexivity. }
      assert (Hlast : last (combineFrom merged rest) current
                      = last (combineFrom merged rest) merged).
      { destruct (combineFrom_head rest merged) as (first & tail & E & _).
        rewrite E. clear. revert first.
        induction tail as [|x tail IHt]; intros first; [reflexivity|].
        cbn [last] in *. apply IHt. }
      rewrite Hhd, Hlast, H1, H2, H3, H4.
      split; [reflexivity|]. split; [reflexivity|].
      destruct rest as [|next rest].
      * cbn. split; reflexivity.
      * unfold merged. rewrite last_extend by discriminate.
        split; reflexivity.
    + destruct (IH note) as (_ & _ & H3 & H4).
      cbn [hd]. split; [reflexivity|]. split; [reflexivity|].
      assert (Hlast : last (current :: combineFrom note rest) current
                      = last (combineFrom note rest) note).
      { destruct (combineFrom_head rest note) as (first & tail & E & _).
        rewrite E. clear. cbn [last]. revert first.
        induction tail as [|x tail IHt]; intros first; [reflexivity|].
        cbn [last] in *. apply IHt. }
      rewrite Hlast, H3, H4.
      destruct rest as [|next rest]; [cbn; split; reflexivity|].
      assert (E : forall d d' : Note.t, last (next :: rest) d = last (next :: rest) d').
      { clear. revert next. induction rest as [|x rest IHr]; intros next d d';
          [reflexivity|]. cbn [last] in *. apply IHr. }
      change (last (note :: next :: rest) current) with (last (next :: rest) current).
      rewrite (E note current). split; reflexivity.
Qed.

(** X15. The combined notes span what the sung notes span: the first
    combined note starts where and when the first note starts, and the
    last combined note ends where and when the last note ends. *)
Theorem combineNotes_keeps_the_span (note : Note.t) (rest : list Note.t) :
  let combined := App.combineNotes (note :: rest) in
  Note.startPosition (hd note combined) = Note.startPosition note
  /\ Note.startTime (hd note combined) = Note.startTime note
  /\ Note.endPosition (last combined note) = Note.endPosition (last rest note)
  /\ Note.endTime (last combined note) = Note.endTime (last rest note).
Proof.
  cbn zeta. rewrite combineNotes_cons. apply combineFrom_span.
Qed.

Lemma combineFrom_same_pitch (rest : list Note.t) :
  forall current,
    Forall (fun n => Note.pitch n = Note.pitch current) rest ->
    combineFrom current rest
    = [Note.extend current (Note.endTime (last rest current))
         (Note.endPosition (last rest current))].
Proof.
  induction rest as [|note rest IH]; intros current H.
  - destruct current. reflexivity.
  - inversion H as [|? ? Hp Hrest]; subst.
    cbn [combineFrom]. rewrite Hp, Z.eqb_refl.
    set (merged := Note.extend current (Note.endTime note) (Note.endPosition note)).
    rewrite (IH merged) by exact Hrest.
    destruct rest as [|next rest].
    + reflexivity.
    + unfold merged. rewrite last_extend by discriminate.
      reflexivity.
Qed.

(** X16. Notes of one pitch are combined into a single note whatever
    their positions are: it runs from the start of the first note to the
    end of the last one, across every gap between them. *)
Theorem combineNotes_bridges_gaps (note : Note.t) (rest : list Note.t) :
  Forall (fun n => Note.pitch n = Note.pitch note) rest ->
  App.combineNotes (note :: rest)
  = [Note.extend note (Note.endTime (last rest note))
       (Note.endPosition (last rest note))].
Proof.
  intros H. rewrite combineNotes_cons. apply combineFrom_same_pitch. exact H.
Qed.

End CombineFacts.

Lemma combineNotes_bridges_gaps_witness :
  App.combineNotes
    [ {| Note.pitch := 69; Note.startPosition := 0; Note.endPosition := 1;
         Note.startTime := 0; Note.endTime := 1 # 16; Note.velocity := None |};
      {| Note.pitch := 69; Note.startPosition := 40; Note.endPosition := 41;
         Note.startTime := 25 # 10; Note.endTime := 41 # 16;
         Note.velocity := None |} ]
  = [ {| Note.pitch := 69; Note.startPosition := 0; Note.endPosition := 41;
         Note.startTime := 0; Note.endTime := 41 # 16; Note.velocity := None |} ].
Proof.
  refine (combineNotes_bridges_gaps
    {| Note.pitch := 69; Note.startPosition := 0; Note.endPosition := 1;
       Note.startTime := 0; Note.endTime := 1 # 16; Note.velocity := None |}
    [ {| Note.pitch := 69; Note.startPosition := 40; Note.endPosition := 41;
         Note.startTime := 25 # 10; Note.endTime := 41 # 16;
         Note.velocity := None |} ] _).
  repeat constructor.
Defined.

(** ** The request to the model and its answer *)

Section RequestFacts.

Variable mm : Magenta.Library.

Lemma fold_Qmax_upper (rest : list Q) :
  forall first : Q,
    (first <= fold_left Qmax rest first)%Q
    /\ Forall (fun x => (x <= fold_left Qmax rest first)%Q) rest.
Proof.
  induction rest as [|y rest IH]; intros first.
  - split; [apply Qle_refl | constructor].
  - cbn [fold_left]. destruct (IH (Qmax first y)) as [H1 H2].
    split; [|constructor].
    + apply Qle_trans with (Qmax first y); [apply Q.le_max_l | exact H1].
    + apply Qle_trans with (Qmax first y); [apply Q.le_max_r | exact H1].
    + exact H2.
Qed.

Lemma fold_Qmax_attained (rest : list Q) :
  forall first : Q, In (fold_left Qmax rest first) (first :: rest).
Proof.
  induction rest as [|y rest IH]; intros first.
  - left. reflexivity.
  - cbn [fold_left]. destruct (IH (Qmax first y)) as [H | H].
    + rewrite <- H.
      unfold Qmax, GenericMinMax.gmax.
      destruct (first ?= y)%Q;
        [left; reflexivity | right; left; reflexivity | left; reflexivity].
    + right. right. exact H.
Qed.

(** The call that reaches the model. *)
Lemma generateResponse_continues
    (this : MagentaManager.t) (notes : list Magenta.t) (temperature : Q) :
  MagentaManager.isInitialized this = true ->
  filter (MagentaManager.isValid this) notes <> [] ->
  let magentaNotes :=
    map MagentaManager.toMagentaNote (filter (MagentaManager.isValid this) notes) in
  MagentaManager.generateResponse mm this notes temperature
  = ContinueSequence
      (Magenta.quantizeNoteSequence mm
         {| Magenta.notes := magentaNotes;
            Magenta.totalTime :=
              JS.Math_max_list (map Magenta.endTime magentaNotes) |} 4)
      32 temperature
      (fun response => Return (map MagentaManager.convertStepNote response)).
Proof.
  intros Hinit Hvalid. cbn zeta.
  unfold MagentaManager.generateResponse. rewrite Hinit. cbn [negb].
  destruct (filter (MagentaManager.isValid this) notes) as [|note rest];
    [contradiction|].
  reflexivity.
Qed.

(** X17. An initialized manager that is given at least one note in its
    range asks the model exactly once: for 32 steps, at the temperature
    of the call, on the sequence of the notes in range quantized at 4
    steps per quarter.  Every note of that sequence has velocity 100, the
    total time of the sequence is the latest end time of its notes, and
    the answer is converted note by note once the model resolves. *)
Theorem generateResponse_asks_the_model_once
    (this : MagentaManager.t) (notes : list Magenta.t) (temperature : Q) :
  MagentaManager.isInitialized this = true ->
  filter (MagentaManager.isValid this) notes <> [] ->
  exists sequence k,
    MagentaManager.generateResponse mm this notes temperature
    = ContinueSequence (Magenta.quantizeNoteSequence mm sequence 4) 32 temperature k
    /\ (forall response,
          k response = Return (map MagentaManager.convertStepNote response))
    /\ map Magenta.pitch (Magenta.notes sequence)
       = map Magenta.pitch (filter (MagentaManager.isValid this) notes)
    /\ Forall (fun note => Magenta.velocity note = 100) (Magenta.notes sequence)
    /\ Forall (fun note => (Magenta.endTime note <= Magenta.totalTime sequence)%Q)
         (Magenta.notes sequence)
    /\ In (Magenta.totalTime sequence) (map Magenta.endTime (Magenta.notes sequence)).
Proof.
  intros Hinit Hvalid.
  set (valid := filter (MagentaManager.isValid this) notes) in *.
  set (magentaNotes := map MagentaManager.toMagentaNote valid).
  exists {| Magenta.notes := magentaNotes;
            Magenta.totalTime := JS.Math_max_list (map Magenta.endTime magentaNotes) |}.
  exists (fun response => Return (map MagentaManager.convertStepNote response)).
  split; [|split; [|split; [|split; [|split]]]].
  - unfold MagentaManager.generateResponse. rewrite Hinit. cbn [negb].
    fold valid.
    destruct valid as [|note rest] eqn:E; [contradiction|].
    reflexivity.
  - reflexivity.
  - cbn [Magenta.notes]. unfold magentaNotes. rewrite map_map. reflexivity.
  - cbn [Magenta.notes]. unfold magentaNotes. apply Forall_forall.
    intros note Hin. apply in_map_iff in Hin. destruct Hin as (n & <- & _).
    reflexivity.
  - cbn [Magenta.notes Magenta.totalTime].
    destruct magentaNotes as [|note rest]; [constructor|].
    cbn [map JS.Math_max_list].
    destruct (fold_Qmax_upper (map Magenta.endTime rest) (Magenta.endTime note))
      as [H1 H2].
    constructor; [exact H1|].
    apply Forall_forall. intros n Hn.
    rewrite Forall_forall in H2. apply H2. apply in_map. exact Hn.
  - cbn [Magenta.notes Magenta.totalTime].
    destruct magentaNotes as [|note rest] eqn:E.
    + exfalso. unfold magentaNotes in E.
      destruct valid; [contradiction | discriminate].
    + cbn [map JS.Math_max_list]. apply fold_Qmax_attained.
Qed.

End RequestFacts.

Lemma generateResponse_asks_the_model_once_witness :
  exists sequence k,
    MagentaManager.generateResponse Session.mm
      (MagentaManager.initialized MagentaManager.constructor)
      [Session.answered] 1
    = ContinueSequence (Magenta.quantizeNoteSequence Session.mm sequence 4) 32 1 k
    /\ Magenta.totalTime sequence = 25 # 100.
Proof.
  destruct (generateResponse_asks_the_model_once Session.mm
              (MagentaManager.initialized MagentaManager.constructor)
              [Session.answered] 1 eq_refl)
    as (sequence & k & E & _ & _ & _ & _ & Hin).
  - vm_compute. discriminate.
  - exists sequence, k. split; [exact E|].
    vm_compute in E. injection E as E1 _. 
    inversion E1. reflexivity.
Defined.

(** ** The loop end, from the request to the answer *)

Section LoopEndFacts.

Import Properties.

Variable mm : Magenta.Library.
Variable r : Render.t.

Lemma eqb_refl (note : Note.t) : Note.eqb note note = true.
Proof.
  unfold Note.eqb. rewrite !Z.eqb_refl.
  rewrite (proj2 (Qeq_bool_iff _ _) (Qeq_refl (Note.startTime note))).
  rewrite (proj2 (Qeq_bool_iff _ _) (Qeq_refl (Note.endTime note))).
  destruct (Note.velocity note) as [v|]; cbn; [apply Z.eqb_refl | reflexivity].
Qed.

Lemma list_eqb_refl (notes : list Note.t) : Note.list_eqb notes notes = true.
Proof.
  induction notes as [|note notes IH]; [reflexivity|].
  cbn [Note.list_eqb]. rewrite eqb_refl, IH. reflexivity.
Qed.

Lemma onLoopEnd_unchanged (st : App.State mm) :
  Note.list_eqb (App.userNotesRef st) (App.previousNotesRef st) = true ->
  App.onLoopEnd r st = (st, []).
Proof.
  intros H. unfold App.onLoopEnd. rewrite H. reflexivity.
Qed.

Lemma first_position (t : Q) : App.normalizedPosition r (t - t) = 0.
Proof.
  unfold App.normalizedPosition, JS.Math_floor, JS.rem.
  set (c := (60 / inject_Z (Render.bpm r) / inject_Z (Render.gridDivision r))%Q).
  assert (E : ((t - t) / c == 0)%Q).
  { unfold Qdiv. setoid_replace (t - t)%Q with 0%Q by ring. ring. }
  rewrite (Qfloor_comp _ _ E). reflexivity.
Qed.

(** X18. The request buffer outlives the session: starting again empties
    the displayed notes and resets the loop, not [userNotesRef].  The
    first frame of the new session is a loop end, and when the buffer
    left over differs from the snapshot its notes are sent to the model
    before anything has been sung. *)
Theorem first_frame_sends_the_notes_left_over
    (st : App.State mm) (f : Frame.t) (manager : MagentaManager.t) :
  App.magentaManager st = Some manager ->
  Render.isWaitingForMagenta r = false ->
  Note.list_eqb (App.userNotesRef st) (App.previousNotesRef st) = false ->
  let again := App.startAudioAnalysis st in
  React.userNotes (App.react again) = []
  /\ App.userNotesRef again = App.userNotesRef st
  /\ App.loopEnd (snd (App.loop r f again)) = true
  /\ App.sent (snd (App.loop r f again))
     = [map App.toMagentaNote (App.combineNotes (App.userNotesRef st))].
Proof.
  intros Hmanager Hwaiting Hchanged again.
  split; [reflexivity|]. split; [reflexivity|].
  rewrite loop_blocks. cbn zeta. cbn [snd App.loopEnd App.sent].
  assert (Hp : App.positionOf r f again = 0).
  { unfold App.positionOf, App.startTimeOf, again. cbn. apply first_position. }
  rewrite Hp.
  assert (Hend : App.isLoopEnd 0
                   (Listen.lastLoopEndPosition (App.listen again))
                   (App.totalPositions r) = true).
  { unfold App.isLoopEnd, again. cbn. apply orb_true_r. }
  rewrite Hend. split; [reflexivity|].
  unfold App.onLoopEnd. cbn zeta.
  cbn [App.userNotesRef App.previousNotesRef App.setListen App.startAudioAnalysis
       App.setReact App.magentaManager App.setPreviousNotesRef again].
  rewrite Hchanged, Hwaiting, Hmanager. reflexivity.
Qed.

Lemma handleNoteEnd_previousNotesRef (time : Q) (st : App.State mm) :
  App.previousNotesRef (fst (App.handleNoteEnd r time st)) = App.previousNotesRef st
  /\ App.inFlight (fst (App.handleNoteEnd r time st)) = App.inFlight st.
Proof.
  unfold App.handleNoteEnd.
  destruct (Render.currentNoteState r); cbn; split; reflexivity.
Qed.

(** The blocks after the loop end leave the two buffers alone on a frame
    that is not voiced. *)
Lemma detectNote_unvoiced_refs (f : Frame.t) (p : Z) (t : Q) (st : App.State mm) :
  voiced f = false ->
  let st' :=
    fst (App.detectNote r f (JS.gt (Frame.currentEnergy f) App.VOLUME_THRESHOLD)
           p t st) in
  App.userNotesRef st' = App.userNotesRef st
  /\ App.previousNotesRef st' = App.previousNotesRef st.
Proof.
  unfold voiced, App.detectNote. intros Hv.
  destruct (JS.gt (Frame.currentEnergy f) App.VOLUME_THRESHOLD).
  - destruct (Frame.findPitch f) as [pitch clarity]. cbn [fst snd andb] in Hv.
    rewrite Hv. cbn. split; reflexivity.
  - destruct (NoteState.isActive (Render.currentNoteState r)); [|cbn; split; reflexivity].
    destruct (Listen.silenceStartTime (App.listen st)) as [s|]; [|cbn; split; reflexivity].
    destruct (negb (JS.truthy s)); [cbn; split; reflexivity|].
    destruct (JS.gt (Frame.now f - s) (1 # 10)); [|cbn; split; reflexivity].
    destruct (handleNoteEnd_refs mm r (Frame.now f) st) as (_ & _ & H1 & _).
    destruct (handleNoteEnd_previousNotesRef (Frame.now f) st) as (H2 & _).
    destruct (App.handleNoteEnd r (Frame.now f) st) as [st1 n].
    cbn in *. rewrite H1, H2. split; reflexivity.
Qed.

Lemma updatePitchDisplay_refs (f : Frame.t) (sound : bool) (st : App.State mm) :
  let st' := fst (App.updatePitchDisplay r f sound st) in
  App.userNotesRef st' = App.userNotesRef st
  /\ App.previousNotesRef st' = App.previousNotesRef st.
Proof.
  unfold App.updatePitchDisplay.
  destruct sound; [cbn; split; reflexivity|].
  set (st0 := if NoteState.isActive (Render.currentNoteState r)
                 && negb (JS.truthy_opt (Listen.silenceStartTime (App.listen st)))
              then App.setListen (Listen.setSilenceStartTime (Some (Frame.now f))) st
              else st).
  assert (H0 : App.userNotesRef st0 = App.userNotesRef st
               /\ App.previousNotesRef st0 = App.previousNotesRef st).
  { unfold st0.
    destruct (NoteState.isActive (Render.currentNoteState r)
              && negb (JS.truthy_opt (Listen.silenceStartTime (App.listen st))));
      cbn; split; reflexivity. }
  destruct H0 as (E1 & E2).
  destruct (Listen.silenceStartTime (App.listen st0)) as [s|];
    [|cbn; rewrite E1, E2; split; reflexivity].
  destruct (JS.truthy s && JS.gt (Frame.now f - s) App.SILENCE_THRESHOLD);
    [|cbn; rewrite E1, E2; split; reflexivity].
  destruct (handleNoteEnd_refs mm r s st0) as (_ & _ & H1 & _).
  destruct (handleNoteEnd_previousNotesRef s st0) as (H2 & _).
  destruct (App.handleNoteEnd r s st0) as [st1 n].
  cbn in *. rewrite H1, H2, E1, E2. split; reflexivity.
Qed.

Lemma loop_unvoiced_sends_nothing (f : Frame.t) (st : App.State mm) :
  voiced f = false ->
  Note.list_eqb (App.userNotesRef st) (App.previousNotesRef st) = true ->
  App.sent (snd (App.loop r f st)) = []
  /\ App.userNotesRef (fst (App.loop r f st)) = App.userNotesRef st
  /\ App.previousNotesRef (fst (App.loop r f st)) = App.previousNotesRef st.
Proof.
  intros Hv Hsame.
  rewrite loop_blocks. cbn zeta. cbn [fst snd App.sent].
  set (st0 := App.setListen (Listen.setStartTime (Some (App.startTimeOf f st))) st).
  assert (Hended : forall b : bool,
             (if b then App.onLoopEnd r st0 else (st0, [])) = (st0, [])).
  { intros [|]; [|reflexivity]. apply onLoopEnd_unchanged. exact Hsame. }
  rewrite Hended. cbn [fst snd]. split; [reflexivity|].
  set (st1 := App.setListen (Listen.setLastLoopEndPosition (App.positionOf r f st)) st0).
  destruct (detectNote_unvoiced_refs f (App.positionOf r f st)
              (Frame.now f - App.startTimeOf f st) st1 Hv) as (D1 & D2).
  match goal with
  | |- context [App.updatePitchDisplay r f ?sound ?s] =>
      destruct (updatePitchDisplay_refs f sound s) as (U1 & U2)
  end.
  cbn zeta in *. rewrite U1, U2, D1, D2. split; reflexivity.
Qed.

Lemma step_unvoiced_sends_nothing (e : App.Event) (st : App.State mm) :
  Clock.unvoiced e ->
  Note.list_eqb (App.userNotesRef st) (App.previousNotesRef st) = true ->
  App.sent (snd (App.step r e st)) = []
  /\ App.userNotesRef (fst (App.step r e st)) = App.userNotesRef st
  /\ App.previousNotesRef (fst (App.step r e st)) = App.previousNotesRef st.
Proof.
  intros He Hsame.
  destruct e as [f | | | i response | i]; cbn [App.step].
  - apply loop_unvoiced_sends_nothing; assumption.
  - repeat split; reflexivity.
  - repeat split; reflexivity.
  - destruct (nth_error (App.inFlight st) i) as [p|]; [|repeat split; reflexivity].
    cbn [fst snd App.sent App.quiet]. split; [reflexivity|].
    match goal with
    | |- context [App.thenCatchFinally r ?c ?s] =>
        destruct (thenCatchFinally_keepsNotes mm r c s) as (_ & K & _);
        rewrite K, (thenCatchFinally_previousNotesRef mm r c s)
    end.
    split; reflexivity.
  - destruct (nth_error (App.inFlight st) i) as [p|]; [|repeat split; reflexivity].
    cbn [fst snd App.sent App.quiet]. split; [reflexivity|].
    match goal with
    | |- context [App.thenCatchFinally r ?c ?s] =>
        destruct (thenCatchFinally_keepsNotes mm r c s) as (_ & K & _);
        rewrite K, (thenCatchFinally_previousNotesRef mm r c s)
    end.
    split; reflexivity.
Qed.

(** X19. Once the buffer equals the snapshot, no request leaves until a
    voiced frame comes: whatever the loop ends, the silence, the mode
    changes and the answers of the model in between, nothing is sent and
    the two buffers stay as they are. *)
Theorem no_request_without_a_voiced_frame
    (events : list App.Event) (st : App.State mm) :
  Note.list_eqb (App.userNotesRef st) (App.previousNotesRef st) = true ->
  Forall Clock.unvoiced events ->
  Forall (fun l => App.sent l = []) (snd (App.run r events st))
  /\ App.userNotesRef (fst (App.run r events st)) = App.userNotesRef st
  /\ App.previousNotesRef (fst (App.run r events st)) = App.previousNotesRef st.
Proof.
  intros Hsame Hevents. revert st Hsame.
  induction Hevents as [|e events He _ IH]; intros st Hsame.
  - cbn. repeat split. constructor.
  - cbn [App.run].
    destruct (step_unvoiced_sends_nothing e st He Hsame) as (S1 & S2 & S3).
    destruct (App.step r e st) as [st1 l]. cbn [fst snd] in *.
    assert (Hsame1 : Note.list_eqb (App.userNotesRef st1) (App.previousNotesRef st1)
                     = true) by (rewrite S2, S3; exact Hsame).
    destruct (IH st1 Hsame1) as (R1 & R2 & R3).
    destruct (App.run r events st1) as [st2 ls]. cbn [fst snd] in *.
    split; [constructor; assumption|].
    rewrite R2, R3, S2, S3. split; reflexivity.
Qed.

(** X20. A request that leaves at a loop end waits in flight with the
    waiting flag set and the snapshot replaced.  When the model resolves
    it, the AI notes become the converted answer, or stay as they are
    when the answer is empty; when the model rejects it, the AI notes
    stay as they are.  Either way the flag is cleared and the request is
    no longer in flight. *)
Theorem request_is_answered_or_rejected
    (st : App.State mm) (manager : MagentaManager.t)
    (response : list Magenta.StepNote) :
  App.magentaManager st = Some manager ->
  MagentaManager.isInitialized manager = true ->
  Render.isWaitingForMagenta r = false ->
  Note.list_eqb (App.userNotesRef st) (App.previousNotesRef st) = false ->
  filter (MagentaManager.isValid manager)
    (map App.toMagentaNote (App.combineNotes (App.userNotesRef st))) <> [] ->
  let asked := fst (App.onLoopEnd r st) in
  let i := List.length (App.inFlight st) in
  let resolved := fst (App.step r (App.ModelResolves i response) asked) in
  let rejected := fst (App.step r (App.ModelRejects i) asked) in
  List.length (App.inFlight asked) = S i
  /\ React.isWaitingForMagenta (App.react asked) = true
  /\ App.previousNotesRef asked = App.userNotesRef st
  /\ App.inFlight resolved = App.inFlight st
  /\ React.isWaitingForMagenta (App.react resolved) = false
  /\ React.aiNotes (App.react resolved)
     = match response with
       | [] => React.aiNotes (App.react st)
       | _ :: _ =>
           map (fun note =>
                  App.convertResponseNote r (MagentaManager.convertStepNote note))
             response
       end
  /\ App.inFlight rejected = App.inFlight st
  /\ React.isWaitingForMagenta (App.react rejected) = false
  /\ React.aiNotes (App.react rejected) = React.aiNotes (App.react st).
Proof.
  intros Hmanager Hinit Hwaiting Hchanged Hvalid asked i resolved rejected.
  assert (E := generateResponse_continues mm manager
                 (map App.toMagentaNote (App.combineNotes (App.userNotesRef st))) 1
                 Hinit Hvalid).
  cbn zeta in E.
  set (q := Magenta.quantizeNoteSequence mm _ 4) in E.
  set (k := fun response : list Magenta.StepNote =>
              @Return mm _ (map MagentaManager.convertStepNote response)) in E.
  assert (Hasked : asked
                   = App.setInFlight
                       (App.inFlight st
                        ++ [{| App.quantized := q; App.steps := 32;
                               App.temperature := 1; App.continuation := k |}])
                       (App.setReact (React.setIsWaitingForMagenta true)
                          (App.setPreviousNotesRef (App.userNotesRef st) st))).
  { unfold asked, App.onLoopEnd. cbn zeta. rewrite Hchanged, Hwaiting.
    cbn [negb andb App.magentaManager App.setReact App.setPreviousNotesRef].
    rewrite Hmanager. cbn [fst].
    cbn [App.userNotesRef App.setPreviousNotesRef].
    rewrite E. reflexivity. }
  assert (Hnth : nth_error (App.inFlight asked) i
                 = Some {| App.quantized := q; App.steps := 32;
                           App.temperature := 1; App.continuation := k |}).
  { rewrite Hasked. cbn [App.inFlight App.setInFlight].
    unfold i. rewrite nth_error_app2 by lia. rewrite Nat.sub_diag. reflexivity. }
  assert (Hrest : App.removeNth i (App.inFlight asked) = App.inFlight st).
  { rewrite Hasked. cbn [App.inFlight App.setInFlight]. unfold i.
    clear. induction (App.inFlight st) as [|p ps IH]; [reflexivity|].
    cbn [app List.length App.removeNth]. rewrite IH. reflexivity. }
  split; [rewrite Hasked; cbn [App.inFlight App.setInFlight];
          rewrite length_app; cbn [List.length]; unfold i; lia|].
  split; [rewrite Hasked; reflexivity|].
  split; [rewrite Hasked; reflexivity|].
  unfold resolved, rejected. cbn [App.step]. rewrite Hnth, Hrest.
  cbn [fst App.continuation]. unfold k.
  split; [|split; [|split; [|split; [|split]]]].
  - unfold App.thenCatchFinally.
    destruct (0 <? Z.of_nat (List.length (map MagentaManager.convertStepNote response)));
      reflexivity.
  - unfold App.thenCatchFinally.
    destruct (0 <? Z.of_nat (List.length (map MagentaManager.convertStepNote response)));
      reflexivity.
  - unfold App.thenCatchFinally.
    destruct response as [|note rest].
    + cbn. rewrite Hasked. reflexivity.
    + cbn [map List.length].
      replace (0 <? Z.of_nat (S (List.length (map MagentaManager.convertStepNote rest))))
        with true by (symmetry; apply Z.ltb_lt; lia).
      cbn. rewrite map_map. reflexivity.
  - reflexivity.
  - reflexivity.
  - cbn. rewrite Hasked. reflexivity.
Qed.

End LoopEndFacts.

Lemma first_frame_sends_the_notes_left_over_witness :
  App.sent (snd (App.loop Session.render (Session.rest 5) Replay.restarted))
  = [map App.toMagentaNote (App.combineNotes (App.userNotesRef Replay.firstNote))].
Proof.
  refine (proj2 (proj2 (proj2
    (first_frame_sends_the_notes_left_over Session.mm Session.render
       Replay.firstNote (Session.rest 5)
       (MagentaManager.initialized MagentaManager.constructor) _ _ _)))).
  - reflexivity.
  - reflexivity.
  - vm_compute. reflexivity.
Defined.

Lemma no_request_without_a_voiced_frame_witness :
  Forall (fun l => App.sent l = [])
    (snd (App.run Session.render
            [App.AnimationFrame (Session.rest (899 # 100));
             App.AnimationFrame (Session.rest 9);
             App.ModelRejects 0]
            (fst (App.onLoopEnd Session.render Replay.firstNote)))).
Proof.
  refine (proj1
    (no_request_without_a_voiced_frame Session.mm Session.render
       [App.AnimationFrame (Session.rest (899 # 100));
        App.AnimationFrame (Session.rest 9);
        App.ModelRejects 0]
       (fst (App.onLoopEnd Session.render Replay.firstNote)) _ _)).
  - vm_compute. reflexivity.
  - repeat constructor.
Defined.

Lemma request_is_answered_or_rejected_witness :
  React.aiNotes
    (App.react
       (fst (App.step Session.render
               (App.ModelResolves (List.length (App.inFlight Replay.firstNote))
                  [Session.continued])
               (fst (App.onLoopEnd Session.render Replay.firstNote)))))
  = [App.convertResponseNote Session.render
       (MagentaManager.convertStepNote Session.continued)].
Proof.
  refine (proj1 (proj2 (proj2 (proj2 (proj2 (proj2
    (request_is_answered_or_rejected Session.mm Session.render
       Replay.firstNote (MagentaManager.initialized MagentaManager.constructor)
       [Session.continued] _ _ _ _ _))))))).
  - reflexivity.
  - reflexivity.
  - reflexivity.
  - vm_compute. reflexivity.
  - vm_compute. discriminate.
Defined.

(** ** The committed notes and the grid *)

Section GridInvariant.

Import Properties.

Variable mm : Magenta.Library.
Variable r : Render.t.

Hypothesis bpm_pos : 0 < Render.bpm r.
Hypothesis gridDivision_pos : 0 < Render.gridDivision r.
Hypothesis numberOfBars_pos : 0 < Render.numberOfBars r.

Lemma normalizedPosition_range (t : Q) :
  (0 <= t)%Q -> 0 <= App.normalizedPosition r t < App.totalPositions r.
Proof.
  intros Ht. unfold App.normalizedPosition, JS.rem, JS.Math_floor.
  apply Z.rem_bound_pos.
  - change 0 with (Qfloor 0). apply Qfloor_resp_le.
    exact (cells_nonneg r bpm_pos gridDivision_pos t Ht).
  - unfold App.totalPositions, App.BEATS_PER_BAR. nia.
Qed.

Lemma commitNote_Forall (P : Note.t -> Prop) (isAddMode : bool) (note : Note.t)
    (prev : list Note.t) :
  P note -> Forall P prev -> Forall P (App.commitNote isAddMode note prev).
Proof.
  intros Hnote Hprev. unfold App.commitNote.
  destruct isAddMode.
  - destruct (existsb _ prev); [exact Hprev|].
    apply Forall_app. split; [exact Hprev | constructor; [exact Hnote | constructor]].
  - apply Forall_app. split; [|constructor; [exact Hnote | constructor]].
    apply Forall_forall. intros n Hn. apply filter_In in Hn.
    rewrite Forall_forall in Hprev. apply Hprev. exact (proj1 Hn).
Qed.

Lemma step_inGrid (e : App.Event) (st : App.State mm) :
  Render.currentNoteState r = None ->
  Clock.afterStart (Listen.startTime (App.listen st)) [e] ->
  Forall (Clock.inGrid r) (React.userNotes (App.react st)) ->
  Forall (Clock.inGrid r) (App.userNotesRef st) ->
  Forall (Clock.inGrid r) (React.userNotes (App.react (fst (App.step r e st))))
  /\ Forall (Clock.inGrid r) (App.userNotesRef (fst (App.step r e st)))
  /\ Listen.startTime (App.listen (fst (App.step r e st)))
     = match e with
       | App.AnimationFrame f => Some (App.startTimeOf f st)
       | _ => Listen.startTime (App.listen st)
       end.
Proof.
  intros Hnone Hclock Hnotes Href.
  destruct e as [f | | | i response | i]; cbn [App.step].
  - destruct (loop_listen mm r f st) as (Hstart & _).
    split; [|split; [|exact Hstart]].
    + destruct (voiced f) eqn:Hv.
      * destruct (loop_voiced mm r f st Hv) as (H1 & _). rewrite H1.
        apply commitNote_Forall; [|exact Hnotes].
        unfold Clock.inGrid, noteOfFrame.
        cbn [Note.startPosition Note.endPosition Note.pitch].
        split; [|split; [reflexivity | lia]].
        apply normalizedPosition_range.
        cbn [Clock.afterStart] in Hclock. destruct Hclock as [Hle _].
        unfold App.startTimeOf.
        destruct (Listen.startTime (App.listen st)) as [s|].
        -- apply (Qplus_le_l _ _ s). ring_simplify. exact Hle.
        -- apply (Qplus_le_l _ _ (Frame.now f)). ring_simplify. apply Qle_refl.
      * destruct (loop_inactive mm r f st Hnone) as (_ & _ & H).
        destruct (H Hv) as (H1 & _). rewrite H1. exact Hnotes.
    + destruct (voiced f) eqn:Hv.
      * destruct (loop_voiced mm r f st Hv) as (_ & H2 & _). rewrite H2.
        apply commitNote_Forall; [|exact Hnotes].
        unfold Clock.inGrid, noteOfFrame.
        cbn [Note.startPosition Note.endPosition Note.pitch].
        split; [|split; [reflexivity | lia]].
        apply normalizedPosition_range.
        cbn [Clock.afterStart] in Hclock. destruct Hclock as [Hle _].
        unfold App.startTimeOf.
        destruct (Listen.startTime (App.listen st)) as [s|].
        -- apply (Qplus_le_l _ _ s). ring_simplify. exact Hle.
        -- apply (Qplus_le_l _ _ (Frame.now f)). ring_simplify. apply Qle_refl.
      * destruct (loop_inactive mm r f st Hnone) as (_ & _ & H).
        destruct (H Hv) as (_ & H2). rewrite H2. exact Href.
  - repeat split; assumption.
  - repeat split; assumption.
  - destruct (nth_error (App.inFlight st) i) as [p|]; [|repeat split; assumption].
    cbn [fst].
    match goal with
    | |- context [App.thenCatchFinally r ?c ?s] =>
        destruct (thenCatchFinally_keepsNotes mm r c s) as (K1 & K2 & _ & K4 & _);
        rewrite K1, K2, K4
    end.
    repeat split; assumption.
  - destruct (nth_error (App.inFlight st) i) as [p|]; [|repeat split; assumption].
    cbn [fst].
    match goal with
    | |- context [App.thenCatchFinally r ?c ?s] =>
        destruct (thenCatchFinally_keepsNotes mm r c s) as (K1 & K2 & _ & K4 & _);
        rewrite K1, K2, K4
    end.
    repeat split; assumption.
Qed.

(** X21. While no frame comes before the start time of the session,
    every note that the loop commits lies in the grid: it fills one cell
    between [0] and the last cell of the loop and carries a MIDI pitch
    between 0 and 127, in the displayed notes and in the request buffer
    alike, whatever else happens in between. *)
Theorem committed_notes_lie_in_the_grid
    (events : list App.Event) (st : App.State mm) :
  Render.currentNoteState r = None ->
  Clock.afterStart (Listen.startTime (App.listen st)) events ->
  Forall (Clock.inGrid r) (React.userNotes (App.react st)) ->
  Forall (Clock.inGrid r) (App.userNotesRef st) ->
  Forall (Clock.inGrid r) (React.userNotes (App.react (fst (App.run r events st))))
  /\ Forall (Clock.inGrid r) (App.userNotesRef (fst (App.run r events st))).
Proof.
  intros Hnone. revert st.
  induction events as [|e events IH]; intros st Hclock Hnotes Href.
  - split; assumption.
  - cbn [App.run].
    assert (Hone : Clock.afterStart (Listen.startTime (App.listen st)) [e]).
    { destruct e; cbn [Clock.afterStart] in *; try exact I.
      split; [exact (proj1 Hclock) | exact I]. }
    destruct (step_inGrid e st Hnone Hone Hnotes Href) as (S1 & S2 & S3).
    assert (Hrest : Clock.afterStart
                      (Listen.startTime (App.listen (fst (App.step r e st)))) events).
    { rewrite S3. destruct e; cbn [Clock.afterStart] in Hclock; try exact Hclock.
      exact (proj2 Hclock). }
    destruct (App.step r e st) as [st1 l]. cbn [fst] in *.
    destruct (IH st1 Hrest S1 S2) as (R1 & R2).
    destruct (App.run r events st1) as [st2 ls]. cbn [fst].
    split; assumption.
Qed.

End GridInvariant.

Lemma committed_notes_lie_in_the_grid_witness :
  Forall (Clock.inGrid Session.render)
    (React.userNotes
       (App.react
          (fst (App.run Session.render
                  [App.AnimationFrame (Session.sung 1 440);
                   App.HandleModeChange;
                   App.AnimationFrame (Session.sung (905 # 100) 494)]
                  Session.started)))).
Proof.
  refine (proj1
    (committed_notes_lie_in_the_grid Session.mm Session.render _ _ _
       [App.AnimationFrame (Session.sung 1 440);
        App.HandleModeChange;
        App.AnimationFrame (Session.sung (905 # 100) 494)]
       Session.started _ _ _ _)).
  - reflexivity.
  - reflexivity.
  - reflexivity.
  - reflexivity.
  - cbn. split; [discriminate|]. split; [discriminate | exact I].
  - constructor.
  - constructor.
Defined.

(** ** [handleNoteStart] on a held note *)

Section HeldNote.

Variable mm : Magenta.Library.
Variable r : Render.t.

Hypothesis bpm_pos : 0 < Render.bpm r.
Hypothesis gridDivision_pos : 0 < Render.gridDivision r.
Hypothesis numberOfBars_pos : 0 < Render.numberOfBars r.

Lemma Math_round_le (x y : Q) : (x <= y)%Q -> JS.Math_round x <= JS.Math_round y.
Proof.
  intros H. unfold JS.Math_round. apply Qfloor_resp_le.
  apply Qplus_le_l. exact H.
Qed.

Lemma calculatePosition_small (t : Q) :
  (0 <= t)%Q ->
  JS.Math_round (t / App.secondsPerSubdivision r) < App.totalPositions r ->
  App.calculatePosition r t = JS.Math_round (t / App.secondsPerSubdivision r).
Proof.
  intros Ht Hsmall. unfold App.calculatePosition, App.wrap, JS.rem. cbn zeta.
  apply Z.rem_small. split; [|exact Hsmall].
  apply JSFacts.Math_round_nonneg.
  exact (cells_nonneg r bpm_pos gridDivision_pos t Ht).
Qed.

(** X22. [handleNoteStart] on a note of the same pitch that has been
    held for [maxNoteDuration] cells or more closes it and opens the next
    one where the closed one ends: before the loop wraps, the closed note
    is at least [maxNoteDuration] cells long, and as much longer as the
    call comes late. *)
Theorem handleNoteStart_splits_a_held_note
    (pitch time : Q) (st : App.State mm) (held : NoteState.Active) :
  Render.currentNoteState r = Some held ->
  JS.midiNumber pitch = JS.midiNumber (NoteState.pitch held) ->
  (0 <= NoteState.startTime held)%Q ->
  NoteState.startPosition held = App.calculatePosition r (NoteState.startTime held) ->
  0 <= Render.maxNoteDuration r ->
  (NoteState.startTime held
   + inject_Z (Render.maxNoteDuration r) * App.secondsPerSubdivision r <= time)%Q ->
  JS.Math_round (time / App.secondsPerSubdivision r) < App.totalPositions r ->
  let out := App.handleNoteStart r pitch time st in
  exists closed : Note.t,
    React.userNotes (App.react (fst out))
    = App.commitNote (App.modeRef st) closed (React.userNotes (App.react st))
    /\ snd out = 1%nat
    /\ Note.pitch closed = JS.midiNumber (NoteState.pitch held)
    /\ Note.startPosition closed = NoteState.startPosition held
    /\ Note.startPosition closed + Render.maxNoteDuration r <= Note.endPosition closed
    /\ React.currentNoteState (App.react (fst out))
       = Some {| NoteState.pitch := pitch;
                 NoteState.startTime := time;
                 NoteState.startPosition := Note.endPosition closed;
                 NoteState.lastUpdateTime := time |}.
Proof.
  intros Hheld Hpitch Hstart Hposition Hmax Hlong Hsmall out.
  set (cell := App.secondsPerSubdivision r) in *.
  assert (Hc : (0 < cell)%Q)
    by exact (secondsPerSubdivision_pos r bpm_pos gridDivision_pos).
  assert (Hcne : ~ (cell == 0)%Q)
    by (intros E; rewrite E in Hc; exact (Qlt_irrefl 0 Hc)).
  assert (Hm : (0 <= inject_Z (Render.maxNoteDuration r))%Q)
    by (change 0%Q with (inject_Z 0); rewrite <- Zle_Qle; exact Hmax).
  assert (Htime : (0 <= time)%Q).
  { apply Qle_trans with (NoteState.startTime held
                          + inject_Z (Render.maxNoteDuration r) * cell)%Q;
      [|exact Hlong].
    rewrite <- (Qplus_0_r 0). apply Qplus_le_compat; [exact Hstart|].
    apply Qmult_le_0_compat; [exact Hm | apply Qlt_le_weak; exact Hc]. }
  assert (Hcells : (NoteState.startTime held / cell
                    + inject_Z (Render.maxNoteDuration r) <= time / cell)%Q).
  { assert (E : (NoteState.startTime held / cell + inject_Z (Render.maxNoteDuration r)
                 == (NoteState.startTime held
                     + inject_Z (Render.maxNoteDuration r) * cell) / cell)%Q)
      by (field; exact Hcne).
    rewrite E. unfold Qdiv. apply Qmult_le_compat_r; [exact Hlong|].
    apply Qlt_le_weak. apply Qinv_lt_0_compat. exact Hc. }
  assert (Hround : JS.Math_round (NoteState.startTime held / cell)
                   + Render.maxNoteDuration r
                   <= JS.Math_round (time / cell)).
  { rewrite <- JSFacts.Math_round_add_Z. apply Math_round_le. exact Hcells. }
  assert (Hend : App.calculatePosition r time = JS.Math_round (time / cell))
    by (apply calculatePosition_small; assumption).
  assert (Hbegin : App.calculatePosition r (NoteState.startTime held)
                   = JS.Math_round (NoteState.startTime held / cell)).
  { apply calculatePosition_small; [exact Hstart|]. fold cell. lia. }
  assert (Hge : JS.ge (time - NoteState.startTime held)
                  (inject_Z (Render.maxNoteDuration r)
                   / inject_Z (Render.gridDivision r)
                   * (60 / inject_Z (Render.bpm r))) = true).
  { unfold JS.ge. apply Qle_bool_iff.
    assert (E : (inject_Z (Render.maxNoteDuration r)
                 / inject_Z (Render.gridDivision r)
                 * (60 / inject_Z (Render.bpm r))
                 == inject_Z (Render.maxNoteDuration r) * cell)%Q).
    { unfold cell, App.secondsPerSubdivision. field.
      split; apply inject_Z_nonzero; assumption. }
    rewrite E.
    apply (Qplus_le_l _ _ (NoteState.startTime held)).
    ring_simplify.
    rewrite Qplus_comm. exact Hlong. }
  exists {| Note.pitch := JS.midiNumber (NoteState.pitch held);
            Note.startPosition := NoteState.startPosition held;
            Note.endPosition := App.calculatePosition r time;
            Note.startTime := NoteState.startTime held;
            Note.endTime := time;
            Note.velocity := None |}.
  assert (Eout : out
                 = (App.setReact
                      (React.setCurrentNoteState
                         (Some {| NoteState.pitch := pitch;
                                  NoteState.startTime := time;
                                  NoteState.startPosition := App.calculatePosition r time;
                                  NoteState.lastUpdateTime := time |}))
                      (fst (App.handleNoteEnd r time st)),
                    snd (App.handleNoteEnd r time st))).
  { unfold out, App.handleNoteStart. rewrite Hheld. cbn zeta.
    rewrite Hpitch, Z.sub_diag. cbn [Z.abs Z.leb Z.compare].
    rewrite Hge.
    destruct (App.handleNoteEnd r time st) as [st1 n]. reflexivity. }
  rewrite Eout. unfold App.handleNoteEnd. rewrite Hheld.
  cbn [fst snd App.react App.setReact React.userNotes React.setUserNotes
       React.setCurrentNoteState React.currentNoteState
       Note.pitch Note.startPosition Note.endPosition].
  split; [reflexivity|]. split; [reflexivity|]. split; [reflexivity|].
  split; [reflexivity|]. split; [|reflexivity].
  rewrite Hposition, Hbegin, Hend. exact Hround.
Qed.

End HeldNote.

Lemma handleNoteStart_splits_a_held_note_witness :
  exists closed : Note.t,
    React.userNotes
      (App.react (fst (App.handleNoteStart Replay.holding 441 (23 # 10)
                         Session.started)))
    = App.commitNote (App.modeRef Session.started) closed
        (React.userNotes (App.react Session.started))
    /\ Note.startPosition closed + 32 <= Note.endPosition closed.
Proof.
  destruct (handleNoteStart_splits_a_held_note Session.mm Replay.holding
              eq_refl eq_refl 441 (23 # 10) Session.started Replay.held)
    as (closed & H1 & _ & _ & _ & H2 & _).
  - reflexivity.
  - vm_compute. reflexivity.
  - discriminate.
  - vm_compute. reflexivity.
  - discriminate.
  - vm_compute. discriminate.
  - vm_compute. reflexivity.
  - exists closed. split; [exact H1 | exact H2].
Defined.

(** ** The two ways of computing a position *)

Section TwoPositions.

Variable r : Render.t.

Hypothesis bpm_pos : 0 < Render.bpm r.
Hypothesis gridDivision_pos : 0 < Render.gridDivision r.
Hypothesis numberOfBars_pos : 0 < Render.numberOfBars r.



End TwoPositions.

